(** * redux-tooltip: placement utilities ([src/utils.js])

    A shallow embedding of the tooltip placement engine: the functions
    [position], [placement], [complete], [intersection], [strip], [amend],
    [overDirs], [adjust] and [originOrEl], together with the part of the
    JavaScript semantics they rest on (IEEE-754 binary64 numbers, the
    conversions between numbers and strings, the operators [+], [-], [*],
    [<], [||], [typeof]), followed by the properties of the specification.

    - JavaScript numbers are the kernel's binary64 floats ([PrimFloat]).
    - Strings are sequences of 8-bit code units.
    - Plain objects are finite maps from property names to primitive values;
      reading a property that is not there gives [undefined].
    - The browser (window, document, element measurements) is a record
      [host] that the functions read and never change.
    - A thrown [TypeError] is the [Throw] case of [completion]. *)

From Stdlib Require Import ZArith Floats Ascii String List Bool Lia.
From stdpp Require Import base option list strings gmap fin_maps.

Local Open Scope string_scope.
Local Open Scope Z_scope.

(* Decimal literals such as 0.2 denote the nearest binary64 value, as in
   JavaScript. *)
#[local] Set Warnings "-inexact-float".

(** ** JavaScript numbers *)

Module JSNumber.

Abbreviation num := float.

(** Exact rationals [rn / rd] with [0 < rd], used only to convert between
    binary64 values and decimal notation. *)
Record rat := Rat { rn : Z; rd : Z }.

Definition rle (a b : rat) : bool := rn a * rd b <=? rn b * rd a.
Definition rlt (a b : rat) : bool := rn a * rd b <? rn b * rd a.
Definition rsub (a b : rat) : rat := Rat (rn a * rd b - rn b * rd a) (rd a * rd b).

(** [scale n b e] is [n * b^e], for any integer exponent [e]. *)
Definition scale (n b e : Z) : rat :=
  if 0 <=? e then Rat (n * b ^ e) 1 else Rat n (b ^ (- e)).

Definition rfloor (a : rat) : Z := rn a / rd a.

(** The binary64 value nearest to [n / d] ([0 <= n], [0 < d]), ties to the
    even significand: the rounding that turns a decimal literal into a
    Number value. *)
Definition of_ratio (n d : Z) : num :=
  if n =? 0 then PrimFloat.zero else
  let e0 := Z.log2 n - Z.log2 d in
  let lg := if rle (scale 1 2 e0) (Rat n d) then e0 else e0 - 1 in
  let sh := Z.max (lg - 52) (-1074) in
  let y := scale 1 2 sh in
  let num' := n * rd y in
  let den' := d * rn y in
  let q := num' / den' in
  let r := num' mod den' in
  let m := if (den' <? 2 * r) || ((2 * r =? den') && Z.odd q) then q + 1 else q in
  if m =? 0 then PrimFloat.zero
  else if (971 <? sh) || ((sh =? 971) && (2 ^ 53 <=? m)) then PrimFloat.infinity
  else SF2Prim (S754_finite false (Z.to_pos m) sh).

(** *** Decimal digits *)

Definition digit_char (d : Z) : ascii := ascii_of_nat (48 + Z.to_nat d).

Fixpoint digits_fuel (fuel : nat) (n : Z) (acc : string) : string :=
  match fuel with
  | O => acc
  | S f =>
      let acc' := String (digit_char (n mod 10)) acc in
      if n <? 10 then acc' else digits_fuel f (n / 10) acc'
  end.

(** The decimal representation of a natural number, no leading zero. *)
Definition Z_digits (n : Z) : string :=
  digits_fuel (S (Z.to_nat (Z.log2 n))) n "".

Fixpoint zeros (n : nat) : string :=
  match n with O => "" | S n' => String "0" (zeros n') end.

Fixpoint str_take (n : nat) (s : string) : string :=
  match n, s with
  | S n', String c s' => String c (str_take n' s')
  | _, _ => ""
  end.

Fixpoint str_drop (n : nat) (s : string) : string :=
  match n, s with
  | S n', String _ s' => str_drop n' s'
  | _, _ => s
  end.

(** *** Number::toString (radix 10) *)

(** [n0] with [10^(n0-1) <= x < 10^n0] for the positive rational [x]:
    an estimate from the binary logarithm, then corrected. *)
Fixpoint magnitude_up (fuel : nat) (x : rat) (n : Z) : Z :=
  match fuel with
  | O => n
  | S f => if rle (scale 1 10 n) x then magnitude_up f x (n + 1) else n
  end.

Fixpoint magnitude_down (fuel : nat) (x : rat) (n : Z) : Z :=
  match fuel with
  | O => n
  | S f => if rlt x (scale 1 10 (n - 1)) then magnitude_down f x (n - 1) else n
  end.

Definition magnitude (m e : Z) : Z :=
  let x := scale m 2 e in
  let est := (Z.log2 m + e) * 30103 / 100000 in
  magnitude_up 4 x (magnitude_down 4 x est).

(** The shortest decimal [s * 10^(n-k)] that reads back as the value
    [m * 2^e], searched by increasing number of digits [k]; when two
    decimals of that length read back, the closer one, and the even one on
    a tie.  The result is [(s, n)]. *)
Fixpoint shortest (fuel : nat) (k : Z) (m e n0 : Z) : Z * Z :=
  let x := scale m 2 e in
  let boundary := (m =? 2 ^ 52) && (-1074 <? e) in
  let lo := if boundary then scale (4 * m - 1) 2 (e - 2) else scale (2 * m - 1) 2 (e - 1) in
  let hi := scale (2 * m + 1) 2 (e - 1) in
  let inside c := if Z.even m then rle lo c && rle c hi else rlt lo c && rlt c hi in
  let p := n0 - k in
  let u := scale 1 10 p in
  let s_lo := rfloor (Rat (rn x * rd u) (rd x * rn u)) in
  let s_hi := s_lo + 1 in
  let c_lo := scale s_lo 10 p in
  let c_hi := scale s_hi 10 p in
  let d_lo := rsub x c_lo in
  let d_hi := rsub c_hi x in
  let pick_hi := if s_hi =? 10 ^ k then (10 ^ (k - 1), n0 + 1) else (s_hi, n0) in
  match inside c_lo, inside c_hi with
  | true, true =>
      if rlt d_lo d_hi then (s_lo, n0)
      else if rlt d_hi d_lo then pick_hi
      else if Z.even s_lo then (s_lo, n0) else pick_hi
  | true, false => (s_lo, n0)
  | false, true => pick_hi
  | false, false =>
      match fuel with
      | O => (s_lo, n0)
      | S f => shortest f (k + 1) m e n0
      end
  end.

Fixpoint strip_zeros (fuel : nat) (s : Z) : Z :=
  match fuel with
  | O => s
  | S f => if (s mod 10 =? 0) && (0 <? s) then strip_zeros f (s / 10) else s
  end.

(** Steps 6 to 10 of Number::toString: the layout of the digits [ds] of
    [s], with the decimal point after the [n]-th digit. *)
Definition layout (ds : string) (n : Z) : string :=
  let k := Z.of_nat (String.length ds) in
  if (k <=? n) && (n <=? 21) then ds ++ zeros (Z.to_nat (n - k))
  else if (0 <? n) && (n <=? 21) then
    str_take (Z.to_nat n) ds ++ "." ++ str_drop (Z.to_nat n) ds
  else if (-6 <? n) && (n <=? 0) then "0." ++ zeros (Z.to_nat (- n)) ++ ds
  else
    let ex := n - 1 in
    let sgn := if ex <? 0 then "-" else "+" in
    let mant := if k =? 1 then ds else str_take 1 ds ++ "." ++ str_drop 1 ds in
    mant ++ "e" ++ sgn ++ Z_digits (Z.abs ex).

Definition toString (x : num) : string :=
  match Prim2SF x with
  | S754_nan => "NaN"
  | S754_zero _ => "0"
  | S754_infinity false => "Infinity"
  | S754_infinity true => "-Infinity"
  | S754_finite sg m e =>
      let '(s, n) := shortest 17 1 (Zpos m) e (magnitude (Zpos m) e) in
      let s' := strip_zeros 17 s in
      (if sg then "-" else "") ++ layout (Z_digits s') n
  end.

(** *** Strings of code units *)

Definition code (c : ascii) : Z := Z.of_nat (nat_of_ascii c).

(** WhiteSpace and LineTerminator code units below 256: TAB, LF, VT, FF,
    CR, SP and NBSP. *)
Definition is_space (c : ascii) : bool :=
  let n := code c in ((9 <=? n) && (n <=? 13)) || (n =? 32) || (n =? 160).

Definition is_digit (c : ascii) : bool :=
  let n := code c in (48 <=? n) && (n <=? 57).

Fixpoint trim_start (s : string) : string :=
  match s with
  | String c s' => if is_space c then trim_start s' else s
  | EmptyString => s
  end.

Fixpoint trim_end (s : string) : string :=
  match s with
  | String c s' =>
      match trim_end s' with
      | EmptyString => if is_space c then "" else String c ""
      | t => String c t
      end
  | EmptyString => ""
  end.

(** String.prototype.trim *)
Definition trim (s : string) : string := trim_end (trim_start s).

Fixpoint strip_prefix (p s : string) : option string :=
  match p, s with
  | EmptyString, _ => Some s
  | String a p', String b s' => if Ascii.eqb a b then strip_prefix p' s' else None
  | String _ _, EmptyString => None
  end.

(** *** StrDecimalLiteral *)

(** Reads decimal digits onto the accumulator: the number read, how many
    digits there were, and the rest of the string. *)
Fixpoint read_digits (s : string) (acc cnt : Z) : Z * Z * string :=
  match s with
  | String c s' =>
      if is_digit c then read_digits s' (acc * 10 + (code c - 48)) (cnt + 1)
      else (acc, cnt, s)
  | EmptyString => (acc, cnt, s)
  end.

(** An ExponentPart, when one is there in full; otherwise exponent 0 and
    nothing consumed. *)
Definition read_exponent (s : string) : Z * string :=
  match s with
  | String c s1 =>
      if (code c =? 101) || (code c =? 69) then
        let '(sg, s2) :=
          match s1 with
          | String "+" t => (1, t)
          | String "-" t => (-1, t)
          | _ => (1, s1)
          end in
        let '(v, cnt, rest) := read_digits s2 0 0 in
        if cnt =? 0 then (0, s) else (sg * v, rest)
      else (0, s)
  | EmptyString => (0, s)
  end.

(** The Number value of the decimal [m * 10^e], [0 <= m]. *)
Definition of_decimal (m e : Z) : num :=
  if 0 <=? e then of_ratio (m * 10 ^ e) 1 else of_ratio m (10 ^ (- e)).

(** The longest prefix that is a StrUnsignedDecimalLiteral: its value and
    the rest of the string. *)
Definition read_unsigned (s : string) : option (num * string) :=
  match strip_prefix "Infinity" s with
  | Some rest => Some (PrimFloat.infinity, rest)
  | None =>
      let '(i, ni, s1) := read_digits s 0 0 in
      let '(m, nf, s2) :=
        match s1 with
        | String "." t => read_digits t i 0
        | _ => (i, 0, s1)
        end in
      if (ni =? 0) && (nf =? 0) then None
      else
        let '(ex, s3) := read_exponent s2 in
        Some (of_decimal m (ex - nf), s3)
  end.

(** The longest prefix that is a StrDecimalLiteral (an optional sign, then
    an unsigned literal). *)
Definition read_decimal (s : string) : option (num * string) :=
  match s with
  | String "+" t => read_unsigned t
  | String "-" t =>
      match read_unsigned t with
      | Some (v, rest) => Some (PrimFloat.opp v, rest)
      | None => None
      end
  | _ => read_unsigned s
  end.

(** The global function parseFloat. *)
Definition parseFloat (s : string) : num :=
  match read_decimal (trim_start s) with
  | Some (v, _) => v
  | None => PrimFloat.nan
  end.

(** *** StringToNumber *)

Definition digit_in (base : Z) (c : ascii) : option Z :=
  let n := code c in
  let d :=
    if (48 <=? n) && (n <=? 57) then n - 48
    else if (97 <=? n) && (n <=? 102) then n - 87
    else if (65 <=? n) && (n <=? 70) then n - 55
    else base in
  if d <? base then Some d else None.

Fixpoint read_base (base : Z) (s : string) (acc : Z) : option Z :=
  match s with
  | EmptyString => Some acc
  | String c s' =>
      match digit_in base c with
      | Some d => read_base base s' (acc * base + d)
      | None => None
      end
  end.

(** A NonDecimalIntegerLiteral: [0x], [0o] or [0b] and at least one digit. *)
Definition read_non_decimal (s : string) : option num :=
  match s with
  | String "0" (String p (String c t)) =>
      let base :=
        if (code p =? 120) || (code p =? 88) then 16
        else if (code p =? 111) || (code p =? 79) then 8
        else if (code p =? 98) || (code p =? 66) then 2
        else 0 in
      if base =? 0 then None
      else match read_base base (String c t) 0 with
           | Some n => Some (of_ratio n 1)
           | None => None
           end
  | _ => None
  end.

(** ToNumber applied to a string. *)
Definition StringToNumber (s : string) : num :=
  let t := trim s in
  match t with
  | EmptyString => PrimFloat.zero
  | _ =>
      match read_non_decimal t with
      | Some v => v
      | None =>
          match read_decimal t with
          | Some (v, EmptyString) => v
          | _ => PrimFloat.nan
          end
      end
  end.

(** *** Operations *)

(** Math.max and Math.min of two numbers: NaN if either is NaN, and +0 is
    larger than -0. *)
Definition is_neg_zero (x : num) : bool := PrimFloat.Leibniz.eqb x PrimFloat.neg_zero.
Definition is_pos_zero (x : num) : bool := PrimFloat.Leibniz.eqb x PrimFloat.zero.

Definition max (x y : num) : num :=
  if PrimFloat.is_nan x || PrimFloat.is_nan y then PrimFloat.nan
  else if is_pos_zero y && is_neg_zero x then y
  else if PrimFloat.ltb x y then y
  else x.

Definition min (x y : num) : num :=
  if PrimFloat.is_nan x || PrimFloat.is_nan y then PrimFloat.nan
  else if is_neg_zero y && is_pos_zero x then y
  else if PrimFloat.ltb y x then y
  else x.

(** ToBoolean on a number: +0, -0 and NaN are falsy. *)
Definition truthy (x : num) : bool :=
  negb (PrimFloat.is_zero x || PrimFloat.is_nan x).

End JSNumber.

(** ** JavaScript values and operators *)

Module JS.
Import JSNumber.

(** Primitive values. *)
Inductive value :=
| Undefined
| Null
| Bool (b : bool)
| Num (n : num)
| Str (s : string).

#[global] Instance value_inhabited : Inhabited value := populate Undefined.

(** A plain object: [o !! k] is [None] when [o] has no property [k], and
    the property read [o.k] is [o !!! k], which is then [Undefined]. *)
Abbreviation obj := (gmap string value).

Definition typeof (v : value) : string :=
  match v with
  | Undefined => "undefined"
  | Null => "object"
  | Bool _ => "boolean"
  | Num _ => "number"
  | Str _ => "string"
  end.

Definition ToNumber (v : value) : num :=
  match v with
  | Undefined => PrimFloat.nan
  | Null => PrimFloat.zero
  | Bool true => PrimFloat.one
  | Bool false => PrimFloat.zero
  | Num n => n
  | Str s => StringToNumber s
  end.

Definition ToString (v : value) : string :=
  match v with
  | Undefined => "undefined"
  | Null => "null"
  | Bool true => "true"
  | Bool false => "false"
  | Num n => toString n
  | Str s => s
  end.

Definition ToBoolean (v : value) : bool :=
  match v with
  | Undefined | Null => false
  | Bool b => b
  | Num n => truthy n
  | Str s => negb (String.eqb s "")
  end.

(** [a + b]: concatenation as soon as one operand is a string. *)
Definition add (a b : value) : value :=
  match a, b with
  | Str _, _ | _, Str _ => Str (ToString a ++ ToString b)
  | _, _ => Num (PrimFloat.add (ToNumber a) (ToNumber b))
  end.

(** [a - b] and [a * b] *)
Definition sub (a b : value) : value := Num (PrimFloat.sub (ToNumber a) (ToNumber b)).
Definition mul (a b : value) : value := Num (PrimFloat.mul (ToNumber a) (ToNumber b)).

(** [a < b]: code-unit order on two strings, numeric order otherwise (false
    as soon as one side is NaN). *)
Definition lt (a b : value) : bool :=
  match a, b with
  | Str s, Str t => String.ltb s t
  | _, _ => PrimFloat.ltb (ToNumber a) (ToNumber b)
  end.

Definition Math_max (a b : value) : value := Num (max (ToNumber a) (ToNumber b)).
Definition Math_min (a b : value) : value := Num (min (ToNumber a) (ToNumber b)).

(** The template literal [`${v}px`]. *)
Definition px (v : value) : value := Str (ToString v ++ "px").

(** [s.replace(pat, rep)] with a string pattern: the first occurrence. *)
Fixpoint replace (pat rep s : string) : string :=
  match strip_prefix pat s with
  | Some rest => rep ++ rest
  | None =>
      match s with
      | String c t => String c (replace pat rep t)
      | EmptyString => ""
      end
  end.

(** [s.split(',')], for a one-character separator: never the empty list. *)
Fixpoint split (sep : ascii) (s : string) : list string :=
  match s with
  | EmptyString => [""]
  | String c t =>
      if Ascii.eqb c sep then "" :: split sep t
      else match split sep t with
           | x :: xs => String c x :: xs
           | [] => [String c ""]
           end
  end.

(** Abrupt completion: the only exception the utilities can raise is the
    TypeError of a property read on [undefined] or [null]. *)
Inductive exn := TypeError.

Inductive completion (A : Type) :=
| Return (a : A)
| Throw (e : exn).
Arguments Return {A} a.
Arguments Throw {A} e.

#[global] Instance completion_ret : MRet completion := @Return.
#[global] Instance completion_bind : MBind completion :=
  fun A B f m => match m with Return a => f a | Throw e => Throw e end.

End JS.

Import JSNumber JS.

(** ** The browser *)

(** What [getBoundingClientRect] measures, in viewport coordinates. *)
Record DOMRect := {
  rect_top : num;
  rect_left : num;
  rect_right : num;
  rect_bottom : num;
  rect_width : num;
  rect_height : num;
}.

(** A DOM element, as far as the utilities look at one. *)
Record element := {
  bounds : DOMRect;
  scrollTop : num;
  scrollLeft : num;
  clientTop : num;
  clientLeft : num;
}.

(** [window] and [document] at the time of a call. *)
Record host := {
  pageYOffset : num;
  pageXOffset : num;
  innerHeight : num;
  innerWidth : num;
  documentElement : element;
  body : element;
  getElementById : string -> option element;
}.

(** [document.body.parentNode] is the root element. *)
Definition body_parentNode (h : host) : element := documentElement h.

Definition getBoundingClientRect (el : element) : obj :=
  let r := bounds el in
  list_to_map
    [("top", Num (rect_top r)); ("left", Num (rect_left r));
     ("right", Num (rect_right r)); ("bottom", Num (rect_bottom r));
     ("width", Num (rect_width r)); ("height", Num (rect_height r))].

(** Whatever a caller may pass where an origin or element is expected: a
    primitive, a DOM element, or a plain object. *)
Inductive jsval :=
| Prim (v : value)
| Elem (e : element)
| Obj (o : obj).

(** The [a || b] of two numbers. *)
Definition num_or (a b : num) : num := if truthy a then a else b.

(** [a || b] on arbitrary values: objects are truthy. *)
Definition js_or (a b : jsval) : jsval :=
  match a with
  | Prim v => if ToBoolean v then a else b
  | Elem _ | Obj _ => a
  end.

(** ** [utils.js] *)

Definition dimension (el : element) : obj :=
  let rect := getBoundingClientRect el in
  list_to_map [("width", rect !!! "width"); ("height", rect !!! "height")].

(** [position(el)]: [el] is an element or null. *)
Definition position (h : host) (el : option element) : obj :=
  let pos : obj := match el with Some e => getBoundingClientRect e | None => ∅ end in
  let doc := documentElement h in
  let winTop := PrimFloat.sub (num_or (pageYOffset h) (scrollTop doc)) (clientTop doc) in
  let winLeft := PrimFloat.sub (num_or (pageXOffset h) (scrollLeft doc)) (clientLeft doc) in
  list_to_map
    [("top", add (pos !!! "top") (Num winTop));
     ("left", add (pos !!! "left") (Num winLeft));
     ("right", add (pos !!! "right") (Num winLeft));
     ("bottom", add (pos !!! "bottom") (Num winTop));
     ("width", pos !!! "width");
     ("height", pos !!! "height")].

Definition gap : value := Num 12%float.
Definition half : value := Num 0.5%float.

(** The rectangle [pos] that [placement] works from:
    [{top: origin.y, right: origin.x, bottom: origin.y, left: origin.x,
      width: 0, height: 0}], replaced by [position(origin)] for a DOM element
    and by [position(document.getElementById(origin))] for a string.
    Reading [origin.y] throws on [undefined] and [null], and yields
    [undefined] on the other primitives. *)
Definition origin_pos (h : host) (origin : jsval) : completion obj :=
  let point (x y : value) : obj :=
    list_to_map
      [("top", y); ("right", x); ("bottom", y); ("left", x);
       ("width", Num 0%float); ("height", Num 0%float)] in
  match origin with
  | Prim Undefined | Prim Null => Throw TypeError
  | Elem e => Return (position h (Some e))
  | Prim (Str id) => Return (position h (getElementById h id))
  | Prim _ => Return (point Undefined Undefined)
  | Obj o => Return (point (o !!! "x") (o !!! "y"))
  end.

(** The two [switch] statements of [placement], on the resolved [pos]. *)
Definition offset_for (place : string) (dim pos : obj) : obj :=
  let offset : obj :=
    list_to_map [("width", dim !!! "width"); ("height", dim !!! "height")] in
  let offset :=
    match place with
    | "top" | "bottom" =>
        <["left" := px (sub (add (pos !!! "left") (mul (pos !!! "width") half))
                            (mul (dim !!! "width") half))]> offset
    | "left" | "right" =>
        <["top" := px (sub (add (pos !!! "top") (mul (pos !!! "height") half))
                           (mul (dim !!! "height") half))]> offset
    | _ => offset
    end in
  match place with
  | "top" => <["top" := px (sub (sub (pos !!! "top") (dim !!! "height")) gap)]> offset
  | "right" => <["left" := px (add (pos !!! "right") gap)]> offset
  | "bottom" => <["top" := px (add (add (pos !!! "top") (pos !!! "height")) gap)]> offset
  | "left" => <["left" := px (sub (sub (pos !!! "left") (dim !!! "width")) gap)]> offset
  | _ => offset
  end.

Definition placement (h : host) (place : string) (content : element) (origin : jsval)
  : completion obj :=
  let dim := dimension content in
  pos ← origin_pos h origin;
  mret (offset_for place dim pos).

Definition DIRS : list string := ["top"; "right"; "bottom"; "left"].

(** A direction or a list of directions. *)
Inductive dirs :=
| OneDir (d : string)
| ManyDirs (l : list string).

(** [Array.prototype.indexOf]: the first index, or -1. *)
Fixpoint indexOf (l : list string) (d : string) : Z :=
  match l with
  | [] => -1
  | x :: l' =>
      if String.eqb x d then 0
      else let i := indexOf l' d in if i =? -1 then -1 else i + 1
  end.

Definition complete (dir : dirs) : list string :=
  let dir := match dir with OneDir d => [d] | ManyDirs l => l end in
  let missings := List.filter (fun d => indexOf dir d =? -1) DIRS in
  (dir ++ missings)%list.

Definition intersection (area1 area2 : obj) : obj :=
  let top := Math_max (area1 !!! "top") (area2 !!! "top") in
  let right := Math_min (add (area1 !!! "left") (area1 !!! "width"))
                        (add (area2 !!! "left") (area2 !!! "width")) in
  let bottom := Math_min (add (area1 !!! "top") (area1 !!! "height"))
                         (add (area2 !!! "top") (area2 !!! "height")) in
  let left := Math_max (area1 !!! "left") (area2 !!! "left") in
  let area : obj := <["left" := left]> (<["bottom" := bottom]> (<["right" := right]>
                    (<["top" := top]> ∅))) in
  let area := <["height" := sub (area !!! "bottom") (area !!! "top")]> area in
  let area := <["width" := sub (area !!! "right") (area !!! "left")]> area in
  area.

(** The [list] of [scrollOffset]. *)
Definition scrollers (h : host) : list element :=
  [documentElement h; body_parentNode h; body h].

(** [list.map(el => el.scrollTop).reduce((p, v) => p || v)], and the same
    for [scrollLeft]. *)
Definition scrollOffset (h : host) : obj :=
  let reduce (l : list num) : num :=
    match l with
    | [] => PrimFloat.nan
    | x :: l' => fold_left num_or l' x
    end in
  list_to_map
    [("top", Num (reduce (map scrollTop (scrollers h))));
     ("left", Num (reduce (map scrollLeft (scrollers h))))].

(** Returns current content area *)
Definition contentArea (h : host) : obj :=
  <["width" := Num (innerWidth h)]> (<["height" := Num (innerHeight h)]> (scrollOffset h)).

(** Strip unit string from property values and convert to float *)
Definition STRIP_FOR : list string :=
  ["top"; "left"; "right"; "bottom"; "width"; "height"].

(** The body of the [forEach] of [strip], on the copy [data]. *)
Definition strip_prop (data : obj) (prop : string) : obj :=
  match data !!! prop with
  | Str s => <[prop := Num (parseFloat (replace "px" "" s))]> data
  | _ => data
  end.

Definition strip (o : obj) : obj := fold_left strip_prop STRIP_FOR o.

Definition is_number (v : value) : bool := String.eqb (typeof v) "number".

(** Make full area data from minimum data *)
Definition amend (area : obj) : obj :=
  let data := strip area in
  let data := if negb (is_number (data !!! "top")) then <["top" := Num 0%float]> data else data in
  let data := if negb (is_number (data !!! "left")) then <["left" := Num 0%float]> data else data in
  let data :=
    if negb (is_number (data !!! "right")) && is_number (data !!! "width")
    then <["right" := add (data !!! "left") (data !!! "width")]> data else data in
  let data :=
    if negb (is_number (data !!! "bottom")) && is_number (data !!! "height")
    then <["bottom" := add (data !!! "top") (data !!! "height")]> data else data in
  data.

(** [l.push(x)] *)
Definition push (l : list string) (x : string) : list string := (l ++ [x])%list.

(** Returns directions which are not in target rectangle.  [el] is the
    container element, or nothing. *)
Definition overDirs (h : host) (tip : obj) (el : option element) : list string :=
  let tip := amend tip in
  let area := amend (contentArea h) in
  let area :=
    match el with
    | Some e => intersection area (position h (Some e))
    | None => area
    end in
  let dirs : list string := [] in
  let dirs := if lt (tip !!! "top") (area !!! "top") then push dirs "top" else dirs in
  let dirs := if lt (area !!! "right") (tip !!! "right") then push dirs "right" else dirs in
  let dirs := if lt (area !!! "bottom") (tip !!! "bottom") then push dirs "bottom" else dirs in
  let dirs := if lt (tip !!! "left") (area !!! "left") then push dirs "left" else dirs in
  dirs.

(** The props of the Tooltip component that [adjust] reads. *)
Record props := {
  p_auto : bool;
  p_within : option (unit -> option element);
  p_place : dirs;
  p_origin : jsval;
  p_el : jsval;
}.

Definition originOrEl (p : props) : jsval := js_or (p_origin p) (p_el p).

(** A Placement Result [{offset, place}]. *)
Record placed := { offset : obj; place : string }.

(** The [while] loop of [adjust]: [tries] is what is left of the list and
    [first] the first attempt, [None] while it is still [undefined]. *)
Fixpoint adjust_loop (h : host) (content : element) (origin : jsval)
    (within : option (unit -> option element))
    (tries : list string) (first : option placed) : completion (option placed) :=
  match tries with
  | [] => mret first
  | current :: tries =>
      pos ← placement h current content origin;
      let first :=
        match first with
        | None => Some {| offset := pos; place := current |}
        | Some _ => first
        end in
      let dirs := overDirs h pos (match within with Some f => f tt | None => None end) in
      match dirs with
      | [] => mret (Some {| offset := pos; place := current |})
      | _ :: _ => adjust_loop h content origin within tries first
      end
  end.

(** The priority list [adjust] walks: [place] split at the commas and
    trimmed when it is a string, completed when [auto] is set. *)
Definition priority (p : props) : list string :=
  let place :=
    match p_place p with
    | OneDir s => map trim (split "," s)
    | ManyDirs l => l
    end in
  if p_auto p then complete (ManyDirs place) else place.

(** Places and adjusts a tooltip: [Some] result, or [None] for [undefined]. *)
Definition adjust (h : host) (content : element) (p : props) : completion (option placed) :=
  let origin := originOrEl p in
  adjust_loop h content origin (p_within p) (priority p) None.

(** ** Vocabulary of the properties *)

(** The list behind a [dirs] argument. *)
Definition dir_list (dir : dirs) : list string :=
  match dir with OneDir d => [d] | ManyDirs l => l end.

Definition mem (d : string) (l : list string) : bool := existsb (String.eqb d) l.

(** How many times [d] occurs in [l]. *)
Definition occurrences (d : string) (l : list string) : nat :=
  length (List.filter (String.eqb d) l).

(** Direction Completion as the specification words it: the input is a
    prefix of the output, and each canonical direction occurs exactly once. *)
Definition complete_exactly_once (l : list string) : Prop :=
  (exists rest, complete (ManyDirs l) = (l ++ rest)%list) /\
  forall d, In d DIRS -> occurrences d (complete (ManyDirs l)) = 1%nat.

(** The container [adjust] hands to [overDirs]: [within && within()]. *)
Definition container (within : option (unit -> option element)) : option element :=
  match within with Some f => f tt | None => None end.

(** The area [overDirs] compares the tip with. *)
Definition reference_area (h : host) (el : option element) : obj :=
  match el with
  | Some e => intersection (amend (contentArea h)) (position h (Some e))
  | None => amend (contentArea h)
  end.

(** The visible viewport: the scroll offset [(top, left)] and the inner
    size of the window, with the edges that follow. *)
Definition viewport (h : host) : obj :=
  let top := scrollOffset h !!! "top" in
  let left := scrollOffset h !!! "left" in
  list_to_map
    [("top", top); ("left", left);
     ("width", Num (innerWidth h)); ("height", Num (innerHeight h));
     ("right", add left (Num (innerWidth h)));
     ("bottom", add top (Num (innerHeight h)))].

(** The tip exceeds the area on side [d]. *)
Definition exceeds (tip area : obj) (d : string) : bool :=
  match d with
  | "top" => lt (tip !!! "top") (area !!! "top")
  | "right" => lt (area !!! "right") (tip !!! "right")
  | "bottom" => lt (area !!! "bottom") (tip !!! "bottom")
  | "left" => lt (tip !!! "left") (area !!! "left")
  | _ => false
  end.

(** The attempt at direction [d], once the origin is resolved to [pos]. *)
Definition candidate (content : element) (pos : obj) (d : string) : placed :=
  {| offset := offset_for d (dimension content) pos; place := d |}.

(** The attempt overflows on no side. *)
Definition fits (h : host) (within : option (unit -> option element)) (c : placed) : bool :=
  match overDirs h (offset c) (container within) with
  | [] => true
  | _ :: _ => false
  end.

(** ToBoolean on any value. *)
Definition truthy_val (v : jsval) : bool :=
  match v with
  | Prim p => ToBoolean p
  | Elem _ | Obj _ => true
  end.

(** The rectangle invariant on the fields of [r]. *)
Definition rect_invariant (r : obj) : Prop :=
  r !!! "right" = add (r !!! "left") (r !!! "width") /\
  r !!! "bottom" = add (r !!! "top") (r !!! "height").

Definition not_string (v : value) : Prop := forall s, v <> Str s.

(** None of the six rectangle fields of [d] is a string. *)
Definition stripped (d : obj) : Prop :=
  forall k, In k STRIP_FOR -> not_string (d !!! k).

(** The two kinds of step [amend] takes: a missing [top] or [left] becomes
    0, and a missing edge [k] is derived from the fields [a] and [b]. *)
Definition default_zero (d : obj) (k : string) : obj :=
  if negb (is_number (d !!! k)) then <[k := Num 0%float]> d else d.

Definition derive (d : obj) (k a b : string) : obj :=
  if negb (is_number (d !!! k)) && is_number (d !!! b)
  then <[k := add (d !!! a) (d !!! b)]> d else d.

(** What [amend] leaves behind: no string among the six fields, numeric
    [top] and [left], and nothing left to derive. *)
Definition amended (a : obj) : Prop :=
  stripped a /\
  is_number (a !!! "top") = true /\
  is_number (a !!! "left") = true /\
  negb (is_number (a !!! "right")) && is_number (a !!! "width") = false /\
  negb (is_number (a !!! "bottom")) && is_number (a !!! "height") = false.

(** The end-to-end scenario: the result is at the top, 68px down and 80px
    across. *)
Definition placed_top_68_80 (r : completion (option placed)) : Prop :=
  exists c, r = Return (Some c) /\ place c = "top" /\
    offset c !!! "top" = Str "68px" /\ offset c !!! "left" = Str "80px".

(** An element measured at the given rectangle, nothing scrolled. *)
Definition element_at (top left width height : num) : element :=
  {| bounds := {| rect_top := top; rect_left := left;
                  rect_right := PrimFloat.add left width;
                  rect_bottom := PrimFloat.add top height;
                  rect_width := width; rect_height := height |};
     scrollTop := 0%float; scrollLeft := 0%float;
     clientTop := 0%float; clientLeft := 0%float |}.

(** A window of the given inner size over an unscrolled document with no
    identified element. *)
Definition window_of (width height : num) : host :=
  {| pageYOffset := 0%float; pageXOffset := 0%float;
     innerHeight := height; innerWidth := width;
     documentElement := element_at 0%float 0%float width height;
     body := element_at 0%float 0%float width height;
     getElementById := fun _ => None |}.

(** The props of the end-to-end scenario: [place: 'top'], no container. *)
Definition scenario (auto : bool) (within : option (unit -> option element))
    (origin el : jsval) : props :=
  {| p_auto := auto; p_within := within; p_place := OneDir "top";
     p_origin := origin; p_el := el |}.

(** The origin as a plain rectangle object, and as a point. *)
Definition rectangle_origin : jsval :=
  Obj (list_to_map
         [("top", Num 100%float); ("left", Num 100%float);
          ("width", Num 0%float); ("height", Num 0%float)]).

Definition point_origin : jsval :=
  Obj (list_to_map [("x", Num 100%float); ("y", Num 100%float)]).

(** The offset of the scenario. *)
Definition offset_68_80 : obj :=
  list_to_map
    [("width", Num 40%float); ("height", Num 20%float);
     ("left", Str "80px"); ("top", Str "68px")].

(** Two overlapping rectangles with fractional coordinates: the first
    starts at [left = 0.2], the second ends at [left + width = 0.9]. *)
Definition area_from_02 : obj :=
  list_to_map
    [("top", Num 0%float); ("left", Num 0.2%float);
     ("width", Num 10%float); ("height", Num 10%float)].

Definition area_upto_09 : obj :=
  list_to_map
    [("top", Num 0%float); ("left", Num 0%float);
     ("width", Num 0.9%float); ("height", Num 10%float)].

(** ** Names and the deprecation shim ([resolve], [deprecatedWarning]) *)

(** What a [name] property may hold: an array of names, or any primitive (a
    string for a single name, [undefined] when there is none). *)
Inductive names :=
| NameList (l : list string)
| NameVal (v : value).

(** A payload object, as far as the utilities read one. *)
Record payload_obj := {
  pl_name : names;
  pl_el : jsval;
  pl_origin : jsval;
}.

(** The [payload] property: a primitive ([undefined] when absent) or an
    object. *)
Inductive payload :=
| PayloadVal (v : value)
| PayloadObj (o : payload_obj).

(** An action, or the props of a component: the properties [type],
    [payload] and [name]. *)
Record action := {
  a_type : value;
  a_payload : payload;
  a_name : names;
}.



Definition payload_has_el (pl : payload) : bool :=
  match pl with
  | PayloadObj o => truthy_val (pl_el o)
  | PayloadVal _ => false
  end.

Definition payload_has_origin (pl : payload) : bool :=
  match pl with
  | PayloadObj o => truthy_val (pl_origin o)
  | PayloadVal _ => false
  end.


Definition warn_deprecated : string :=
  "DEPRECATED: Use 'origin' instead of 'el' in props for Tooltip component or 'show' action.".

Definition warn_both : string :=
  "Do not pass both 'origin' and 'el' props at the same time.".

(** [actionTypes.indexOf(action.type) === -1]: only a string can be found
    in the list of action types. *)
Definition unrelated (actionTypes : list string) (type : value) : bool :=
  match type with
  | Str s => indexOf actionTypes s =? -1
  | _ => true
  end.

(** [deprecatedWarning(action)], as the list of messages it passes to
    [console.warn], in order.  [actionTypes] is the list the module builds
    from the string exports of [./actions]. *)
Definition deprecatedWarning (actionTypes : list string) (a : action) : list string :=
  if unrelated actionTypes (a_type a) then []
  else
    let log : list string := [] in
    let log := if payload_has_el (a_payload a) then push log warn_deprecated else log in
    let log :=
      if payload_has_el (a_payload a) && payload_has_origin (a_payload a)
      then push log warn_both else log in
    log.

(** ** Further vocabulary *)

(** [origin] is [undefined] or [null]. *)
Definition nullish (v : jsval) : bool :=
  match v with
  | Prim Undefined | Prim Null => true
  | _ => false
  end.

(** The six fields of a full rectangle. *)
Definition full_rectangle (r : obj) : Prop :=
  forall k, In k STRIP_FOR -> is_number (r !!! k) = true.

(** The offset of a tooltip that could not be located. *)
Definition offset_NaN (content : element) : obj :=
  list_to_map
    [("width", Num (rect_width (bounds content)));
     ("height", Num (rect_height (bounds content)));
     ("left", Str "NaNpx"); ("top", Str "NaNpx")].

(** The cross-axis coordinate that centres the content on [pos], and the
    four main-axis coordinates. *)
Definition centre_left (dim pos : obj) : value :=
  px (sub (add (pos !!! "left") (mul (pos !!! "width") half)) (mul (dim !!! "width") half)).

Definition centre_top (dim pos : obj) : value :=
  px (sub (add (pos !!! "top") (mul (pos !!! "height") half)) (mul (dim !!! "height") half)).




(** What [strip] does to one property: a string is parsed, anything else,
    or nothing, is left as it is. *)
Definition parsed (x : option value) : option value :=
  match x with
  | Some (Str s) => Some (Num (parseFloat (replace "px" "" s)))
  | _ => x
  end.

(** * Properties *)

(** ** Binary64 comparison *)

Section Binary64.

Lemma nan_add_l x : PrimFloat.add PrimFloat.nan x = PrimFloat.nan.
Proof. apply Prim2SF_inj. rewrite add_spec. reflexivity. Qed.

Lemma SFcompare_antisym a b :
  SFcompare b a = option_map CompOpp (SFcompare a b).
Proof.
  destruct a as [[]|[]| |[] ma ea], b as [[]|[]| |[] mb eb]; simpl; try reflexivity.
  all: rewrite (Z.compare_antisym ea eb); destruct (ea ?= eb)%Z; simpl; try reflexivity.
  all: rewrite (Pos.compare_cont_antisym _ _ Eq); simpl; try reflexivity.
  all: destruct (Pos.compare_cont Eq ma mb); reflexivity.
Qed.

Lemma SFcompare_eq a b :
  SFcompare a b = Some Eq ->
  a = b \/ exists s t, a = S754_zero s /\ b = S754_zero t.
Proof.
  destruct a as [[]|[]| |[] ma ea], b as [[]|[]| |[] mb eb];
    simpl; intros H; try discriminate; eauto.
  all: destruct (ea ?= eb)%Z eqn:He; try discriminate.
  all: apply Z.compare_eq in He; subst eb.
  all: left; f_equal.
  all: injection H as H.
  - destruct (Pos.compare_cont Eq ma mb) eqn:Hc; try discriminate.
    now apply Pos.compare_eq.
  - now apply Pos.compare_eq.
Qed.

Lemma is_nan_false x : PrimFloat.is_nan x = false -> Prim2SF x <> S754_nan.
Proof.
  unfold PrimFloat.is_nan. rewrite FloatAxioms.eqb_spec. unfold SFeqb.
  intros H E. rewrite E in H. discriminate.
Qed.

Lemma zero_cases x s :
  Prim2SF x = S754_zero s -> x = if s then PrimFloat.neg_zero else PrimFloat.zero.
Proof.
  intros H. rewrite <- (SF2Prim_Prim2SF x), H. destruct s; reflexivity.
Qed.

(** Two numbers that are not NaN are ordered one way or the other, or are
    the same number, or are two zeros. *)
Lemma ltb_cases x y :
  PrimFloat.is_nan x = false -> PrimFloat.is_nan y = false ->
  (PrimFloat.ltb x y = true /\ PrimFloat.ltb y x = false) \/
  (PrimFloat.ltb x y = false /\ PrimFloat.ltb y x = true) \/
  (PrimFloat.ltb x y = false /\ PrimFloat.ltb y x = false /\
   (x = y \/
    ((x = PrimFloat.zero \/ x = PrimFloat.neg_zero) /\
     (y = PrimFloat.zero \/ y = PrimFloat.neg_zero)))).
Proof.
  intros Hx%is_nan_false Hy%is_nan_false.
  rewrite !ltb_spec. unfold SFltb.
  rewrite (SFcompare_antisym (Prim2SF x) (Prim2SF y)).
  destruct (SFcompare (Prim2SF x) (Prim2SF y)) as [[]|] eqn:Hc; simpl; auto.
  - right; right. repeat split; auto.
    apply SFcompare_eq in Hc as [E|(s & t & Es & Et)].
    + left. now apply Prim2SF_inj.
    + right. apply zero_cases in Es, Et. split; [destruct s|destruct t]; auto.
  - exfalso.
    destruct (Prim2SF x) as [[]|[]| |[] ? ?], (Prim2SF y) as [[]|[]| |[] ? ?];
      simpl in Hc; congruence.
Qed.

Ltac leibniz_cases :=
  repeat match goal with
    | |- context [PrimFloat.Leibniz.eqb ?a ?b] =>
        let E := fresh "E" in
        destruct (PrimFloat.Leibniz.eqb a b) eqn:E;
        [apply FloatAxioms.Leibniz.eqb_spec in E; subst|]
    end.

Ltac order_cases x y Hx Hy :=
  let H1 := fresh in
  let H2 := fresh in
  destruct (ltb_cases x y Hx Hy)
    as [[H1 H2]|[[H1 H2]|(H1 & H2 & [?|[[?|?] [?|?]]])]];
  subst; try reflexivity; rewrite ?H1, ?H2;
  leibniz_cases; simpl; try reflexivity; discriminate.

Lemma max_comm x y : max x y = max y x.
Proof.
  unfold max. rewrite (orb_comm (PrimFloat.is_nan y)).
  destruct (PrimFloat.is_nan x || PrimFloat.is_nan y) eqn:Hn; [reflexivity|].
  apply orb_false_elim in Hn as [Hx Hy].
  unfold is_pos_zero, is_neg_zero. order_cases x y Hx Hy.
Qed.

Lemma min_comm x y : min x y = min y x.
Proof.
  unfold min. rewrite (orb_comm (PrimFloat.is_nan y)).
  destruct (PrimFloat.is_nan x || PrimFloat.is_nan y) eqn:Hn; [reflexivity|].
  apply orb_false_elim in Hn as [Hx Hy].
  unfold is_pos_zero, is_neg_zero. order_cases x y Hx Hy.
Qed.

Lemma Math_max_comm a b : Math_max a b = Math_max b a.
Proof. unfold Math_max. now rewrite max_comm. Qed.

Lemma Math_min_comm a b : Math_min a b = Math_min b a.
Proof. unfold Math_min. now rewrite min_comm. Qed.

End Binary64.

(** ** Rectangle intersection *)

(** C8. Swapping the two rectangles gives the same intersection, whatever
    their fields hold; nothing keeps the resulting width and height from
    being negative (see [intersection_disjoint]). *)
Theorem intersection_symmetric (a b : obj) :
  intersection a b = intersection b a.
Proof.
  unfold intersection.
  rewrite (Math_max_comm (a !!! "top")), (Math_max_comm (a !!! "left")).
  rewrite (Math_min_comm (add (a !!! "left") (a !!! "width"))).
  rewrite (Math_min_comm (add (a !!! "top") (a !!! "height"))).
  reflexivity.
Qed.

(** Two rectangles that do not overlap: the intersection has a negative
    width and a negative height. *)
Example intersection_disjoint :
  let a : obj := list_to_map
    [("top", Num 0); ("left", Num 0); ("width", Num 10); ("height", Num 10)] in
  let b : obj := list_to_map
    [("top", Num 50); ("left", Num 30); ("width", Num 10); ("height", Num 10)] in
  intersection a b !!! "width" = Num (-20) /\
  intersection a b !!! "height" = Num (-40).
Proof. split; vm_compute; reflexivity. Qed.

(** ** Overflow detection *)

Lemma is_number_Num v : is_number v = true -> exists n, v = Num n.
Proof. destruct v; try discriminate. eauto. Qed.

(** The amended content area is the viewport rectangle. *)
Lemma viewport_area h : amend (contentArea h) = viewport h.
Proof. destruct h. vm_compute. reflexivity. Qed.

Lemma overDirs_filter h tip el :
  overDirs h tip el = List.filter (exceeds (amend tip) (reference_area h el)) DIRS.
Proof.
  unfold overDirs.
  change (match el with
          | Some e => intersection (amend (contentArea h)) (position h (Some e))
          | None => amend (contentArea h)
          end) with (reference_area h el).
  generalize (amend tip) (reference_area h el). intros t a.
  unfold DIRS, push. cbn [List.filter exceeds].
  destruct (lt (t !!! "top") (a !!! "top")), (lt (a !!! "right") (t !!! "right")),
    (lt (a !!! "bottom") (t !!! "bottom")), (lt (t !!! "left") (a !!! "left"));
    reflexivity.
Qed.

(** C3. [overDirs] returns, in the order top, right, bottom, left, exactly
    the sides on which the amended tip strictly exceeds the reference area;
    that area is the visible viewport when no container is given and the
    intersection of the viewport with the container's position otherwise;
    a tip that exceeds on no side gives the empty list. *)
Theorem overDirs_exact (h : host) (tip : obj) (el : option element) :
  overDirs h tip el = List.filter (exceeds (amend tip) (reference_area h el)) DIRS /\
  (forall d, In d (overDirs h tip el) <->
             In d DIRS /\ exceeds (amend tip) (reference_area h el) d = true) /\
  reference_area h None = viewport h /\
  (forall e, reference_area h (Some e) = intersection (viewport h) (position h (Some e))) /\
  ((forall d, In d DIRS -> exceeds (amend tip) (reference_area h el) d = false) ->
   overDirs h tip el = []).
Proof.
  split; [apply overDirs_filter|]. split; [|split; [|split]].
  - intros d. rewrite overDirs_filter, filter_In. reflexivity.
  - apply viewport_area.
  - intros e. unfold reference_area. now rewrite viewport_area.
  - intros H. rewrite overDirs_filter. unfold DIRS. cbn [List.filter].
    rewrite !H by (unfold DIRS; cbn [In]; tauto). reflexivity.
Qed.

(** ** Position *)

(** C5. Without an element [position] throws nothing and returns a
    rectangle with no usable field: [top], [left], [right] and [bottom] are
    NaN, [width] and [height] are [undefined]. *)
Theorem position_of_nothing (h : host) :
  position h None =
    list_to_map
      [("top", Num PrimFloat.nan); ("left", Num PrimFloat.nan);
       ("right", Num PrimFloat.nan); ("bottom", Num PrimFloat.nan);
       ("width", Undefined); ("height", Undefined)].
Proof.
  unfold position. rewrite !lookup_total_empty.
  cbn [add ToNumber inhabitant value_inhabited].
  rewrite !nan_add_l. reflexivity.
Qed.

(** ** Origin resolution *)

(** C10. [originOrEl] is [props.origin] when that is truthy and [props.el]
    otherwise: an origin that is absent, null, the empty string or 0 is
    replaced by [el]; and this is the origin [adjust] places against. *)
Theorem originOrEl_truthy (p : props) :
  originOrEl p = (if truthy_val (p_origin p) then p_origin p else p_el p) /\
  (In (p_origin p) [Prim Undefined; Prim Null; Prim (Str ""); Prim (Num 0%float)] ->
   originOrEl p = p_el p) /\
  (forall h content,
     adjust h content p
     = adjust_loop h content (originOrEl p) (p_within p) (priority p) None).
Proof.
  split; [|split].
  - unfold originOrEl, js_or, truthy_val. destruct (p_origin p); reflexivity.
  - unfold originOrEl. intros [<-|[<-|[<-|[<-|[]]]]]; reflexivity.
  - reflexivity.
Qed.

(** ** Direction completion *)

Lemma indexOf_absent l d : (indexOf l d =? -1) = negb (mem d l).
Proof.
  assert (B : forall l, -1 <= indexOf l d).
  { intros l'. induction l' as [|x l' IH]; cbn [indexOf]; [lia|].
    destruct (String.eqb x d); [lia|]. destruct (indexOf l' d =? -1) eqn:E; lia. }
  induction l as [|x l IH]; cbn [indexOf mem existsb]; [reflexivity|].
  rewrite (String.eqb_sym d x). destruct (String.eqb x d); [reflexivity|].
  fold (mem d l). cbn [orb]. rewrite <- IH.
  destruct (indexOf l d =? -1) eqn:E; [reflexivity|].
  specialize (B l). apply Z.eqb_neq in E. apply Z.eqb_neq. lia.
Qed.

Lemma complete_missing dir :
  complete dir
  = (dir_list dir ++ List.filter (fun d => negb (mem d (dir_list dir))) DIRS)%list.
Proof.
  unfold complete. fold (dir_list dir). f_equal.
  apply filter_ext. intros d. apply indexOf_absent.
Qed.

Lemma occurrences_app d l m :
  occurrences d (l ++ m)%list = (occurrences d l + occurrences d m)%nat.
Proof. unfold occurrences. now rewrite List.filter_app, length_app. Qed.

Lemma occurrences_mem d l : mem d l = negb (Nat.eqb (occurrences d l) 0).
Proof.
  unfold occurrences, mem. induction l as [|x l IH]; cbn [existsb List.filter]; [reflexivity|].
  destruct (String.eqb d x); cbn [orb length]; [reflexivity|exact IH].
Qed.

Lemma occurrences_missing d l :
  occurrences d (List.filter (fun d => negb (mem d l)) DIRS)
  = if mem d DIRS then (if mem d l then 0%nat else 1%nat) else 0%nat.
Proof.
  unfold DIRS, mem at 2. cbn [existsb List.filter].
  destruct (String.eqb d "top") eqn:E1; [apply String.eqb_eq in E1; subst d|];
  [|destruct (String.eqb d "right") eqn:E2; [apply String.eqb_eq in E2; subst d|];
    [|destruct (String.eqb d "bottom") eqn:E3; [apply String.eqb_eq in E3; subst d|];
      [|destruct (String.eqb d "left") eqn:E4; [apply String.eqb_eq in E4; subst d|]]]];
  cbn [orb];
  destruct (mem "top" l), (mem "right" l), (mem "bottom" l), (mem "left" l);
  cbn [negb]; unfold occurrences; cbn [List.filter];
  rewrite ?E1, ?E2, ?E3, ?E4; reflexivity.
Qed.

Lemma mem_In d l : mem d l = true <-> In d l.
Proof.
  unfold mem. rewrite existsb_exists. split.
  - intros (x & Hx & E). apply String.eqb_eq in E. now subst.
  - intros H. exists d. split; [exact H|apply String.eqb_refl].
Qed.

(** C4, as amended.  [complete] returns its input followed by the canonical
    directions the input lacks, in canonical order.  A canonical direction
    occurs in the result as often as in the input, and once when the input
    lacks it; so it occurs exactly once as soon as the input does not repeat
    it.  Any other entry occurs as often as in the input. *)
Theorem complete_appends_missing (dir : dirs) :
  let l := dir_list dir in
  complete dir = (l ++ List.filter (fun d => negb (mem d l)) DIRS)%list /\
  (forall d, In d DIRS ->
     occurrences d (complete dir) = Nat.max 1 (occurrences d l)) /\
  (forall d, In d DIRS -> (occurrences d l <= 1)%nat ->
     occurrences d (complete dir) = 1%nat) /\
  (forall d, ~ In d DIRS -> occurrences d (complete dir) = occurrences d l).
Proof.
  intros l. subst l.
  assert (C : forall d, In d DIRS ->
     occurrences d (complete dir) = Nat.max 1 (occurrences d (dir_list dir))).
  { intros d Hd. rewrite complete_missing, occurrences_app, occurrences_missing.
    apply mem_In in Hd. rewrite Hd, occurrences_mem.
    destruct (occurrences d (dir_list dir)); cbn [Nat.eqb negb]; lia. }
  split; [apply complete_missing|]. split; [exact C|]. split.
  - intros d Hd Hle. rewrite (C d Hd). lia.
  - intros d Hd. rewrite complete_missing, occurrences_app, occurrences_missing.
    destruct (mem d DIRS) eqn:E; [apply mem_In in E; contradiction|lia].
Qed.

(** A list that repeats a direction keeps the repetition: "exactly once"
    fails on [["top"; "top"]]. *)
Lemma complete_keeps_duplicates :
  complete (ManyDirs ["top"; "top"]) = ["top"; "top"; "right"; "bottom"; "left"] /\
  ~ complete_exactly_once ["top"; "top"].
Proof.
  split; [reflexivity|].
  intros [_ H]. specialize (H "top" (or_introl eq_refl)). discriminate H.
Qed.

(** ** Strip and amend *)

Lemma strip_unfold o :
  strip o = strip_prop (strip_prop (strip_prop (strip_prop (strip_prop (strip_prop o
              "top") "left") "right") "bottom") "width") "height".
Proof. reflexivity. Qed.

Lemma strip_prop_same d k : not_string (strip_prop d k !!! k).
Proof.
  unfold strip_prop. destruct (d !!! k) eqn:E; intros s'; rewrite ?E; try discriminate.
  rewrite lookup_total_insert_eq. discriminate.
Qed.

Lemma strip_prop_keeps d k j : not_string (d !!! j) -> not_string (strip_prop d k !!! j).
Proof.
  intros H. destruct (decide (k = j)) as [->|N]; [apply strip_prop_same|].
  unfold strip_prop. destruct (d !!! k); try exact H.
  now rewrite lookup_total_insert_ne.
Qed.

Lemma strip_prop_id d k : not_string (d !!! k) -> strip_prop d k = d.
Proof.
  unfold strip_prop. intros H. destruct (d !!! k) eqn:E; try reflexivity.
  now destruct (H s).
Qed.

Lemma strip_stripped o : stripped (strip o).
Proof.
  intros k Hk. rewrite strip_unfold. unfold STRIP_FOR in Hk. cbn [In] in Hk.
  destruct Hk as [<-|[<-|[<-|[<-|[<-|[<-|[]]]]]]];
    repeat first [apply strip_prop_same | apply strip_prop_keeps].
Qed.

Lemma strip_id d : stripped d -> strip d = d.
Proof.
  intros H. rewrite strip_unfold.
  assert (K : forall k, In k STRIP_FOR -> strip_prop d k = d).
  { intros k Hk. apply strip_prop_id, H, Hk. }
  rewrite !K by (unfold STRIP_FOR; cbn [In]; tauto). reflexivity.
Qed.

Lemma is_number_not_string v : is_number v = true -> not_string v.
Proof. intros H s ->. discriminate. Qed.

Lemma is_number_add a b :
  is_number a = true -> is_number b = true -> is_number (add a b) = true.
Proof. destruct a, b; try discriminate. reflexivity. Qed.

Lemma amend_steps r :
  amend r = derive (derive (default_zero (default_zero (strip r) "top") "left")
                           "right" "left" "width") "bottom" "top" "height".
Proof. unfold amend, derive, default_zero. reflexivity. Qed.

Lemma default_zero_other d k j : k <> j -> default_zero d k !!! j = d !!! j.
Proof.
  intros N. unfold default_zero. destruct (negb _); [|reflexivity].
  now rewrite lookup_total_insert_ne.
Qed.

Lemma default_zero_same d k : is_number (default_zero d k !!! k) = true.
Proof.
  unfold default_zero. destruct (is_number (d !!! k)) eqn:E; cbn [negb]; [exact E|].
  now rewrite lookup_total_insert_eq.
Qed.

Lemma derive_other d k a b j : k <> j -> derive d k a b !!! j = d !!! j.
Proof.
  intros N. unfold derive. destruct (_ && _); [|reflexivity].
  now rewrite lookup_total_insert_ne.
Qed.

(** The derived edge is the sum of the two fields it comes from. *)
Lemma derive_same d k a b :
  is_number (d !!! k) = false -> is_number (d !!! b) = true ->
  derive d k a b !!! k = add (d !!! a) (d !!! b).
Proof.
  intros Hk Hb. unfold derive. rewrite Hk, Hb. cbn [negb andb].
  now rewrite lookup_total_insert_eq.
Qed.

Lemma derive_done d k a b :
  k <> b -> is_number (d !!! a) = true ->
  negb (is_number (derive d k a b !!! k)) && is_number (derive d k a b !!! b) = false.
Proof.
  intros N Ha. rewrite (derive_other d k a b b N).
  destruct (is_number (d !!! k)) eqn:Hk.
  - unfold derive. rewrite Hk. cbn [negb andb]. rewrite Hk. reflexivity.
  - destruct (is_number (d !!! b)) eqn:Hb.
    + rewrite derive_same by assumption. rewrite is_number_add by assumption. reflexivity.
    + apply andb_false_r.
Qed.

Lemma default_zero_not_string d k j :
  not_string (d !!! j) -> not_string (default_zero d k !!! j).
Proof.
  intros H. destruct (decide (k = j)) as [->|N].
  - apply is_number_not_string, default_zero_same.
  - now rewrite default_zero_other.
Qed.

Lemma derive_not_string d k a b j :
  is_number (d !!! a) = true ->
  not_string (d !!! j) -> not_string (derive d k a b !!! j).
Proof.
  intros Ha H. destruct (decide (k = j)) as [->|N]; [|now rewrite derive_other].
  unfold derive. destruct (negb _ && is_number (d !!! b)) eqn:E; [|exact H].
  apply andb_true_iff in E as [_ Hb]. rewrite lookup_total_insert_eq.
  now apply is_number_not_string, is_number_add.
Qed.

Lemma amended_fixed a : amended a -> amend a = a.
Proof.
  intros (Hs & Ht & Hl & Hr & Hb). unfold amend.
  rewrite (strip_id a Hs). cbv zeta.
  rewrite Ht. cbn [negb]. rewrite Hl. cbn [negb]. rewrite Hr, Hb. reflexivity.
Qed.

Lemma amend_amended r : amended (amend r).
Proof.
  rewrite amend_steps. pose proof (strip_stripped r) as Hs.
  generalize dependent (strip r). intros d0 S0.
  assert (S2 : stripped (default_zero (default_zero d0 "top") "left")).
  { intros k Hk. do 2 apply default_zero_not_string. now apply S0. }
  assert (T2 : is_number (default_zero (default_zero d0 "top") "left" !!! "top") = true).
  { rewrite default_zero_other by discriminate. apply default_zero_same. }
  assert (L2 : is_number (default_zero (default_zero d0 "top") "left" !!! "left") = true)
    by apply default_zero_same.
  generalize dependent (default_zero (default_zero d0 "top") "left").
  clear d0 S0. intros d2 S2 T2 L2.
  assert (S3 : stripped (derive d2 "right" "left" "width")).
  { intros k Hk. apply derive_not_string; [exact L2|]. now apply S2. }
  assert (T3 : is_number (derive d2 "right" "left" "width" !!! "top") = true).
  { now rewrite derive_other by discriminate. }
  assert (L3 : is_number (derive d2 "right" "left" "width" !!! "left") = true).
  { now rewrite derive_other by discriminate. }
  assert (R3 : negb (is_number (derive d2 "right" "left" "width" !!! "right"))
               && is_number (derive d2 "right" "left" "width" !!! "width") = false).
  { apply derive_done; [discriminate|exact L2]. }
  generalize dependent (derive d2 "right" "left" "width").
  clear d2 S2 T2 L2. intros d3 S3 T3 L3 R3.
  split; [|split; [|split; [|split]]].
  - intros k Hk. apply derive_not_string; [exact T3|]. now apply S3.
  - now rewrite derive_other by discriminate.
  - now rewrite derive_other by discriminate.
  - rewrite (derive_other d3 "bottom" "top" "height" "right") by discriminate.
    rewrite (derive_other d3 "bottom" "top" "height" "width") by discriminate.
    exact R3.
  - apply derive_done; [discriminate|exact T3].
Qed.

(** C7. [amend] is idempotent on every object, whatever its fields hold. *)
Theorem amend_idempotent (r : obj) : amend (amend r) = amend r.
Proof. apply amended_fixed, amend_amended. Qed.

(** ** Placement *)

(** Every origin but [undefined] and [null] resolves to a rectangle, and
    those two make [placement] throw. *)
Lemma origin_pos_defined h origin :
  origin <> Prim Undefined -> origin <> Prim Null ->
  exists pos, origin_pos h origin = Return pos.
Proof.
  intros N1 N2. destruct origin as [[]| |]; cbn [origin_pos]; try congruence; eauto.
Qed.

Lemma placement_resolved h d content origin pos :
  origin_pos h origin = Return pos ->
  placement h d content origin = Return (offset_for d (dimension content) pos).
Proof. intros E. unfold placement. rewrite E. reflexivity. Qed.

(** ** The fallback loop *)

(** The loop returns the first remaining candidate that fits; failing
    that, the first attempt made so far, or the first candidate when none
    was made. *)
Lemma adjust_loop_first_fit h content origin pos within tries first :
  origin_pos h origin = Return pos ->
  adjust_loop h content origin within tries first
  = Return
      (match List.find (fits h within) (map (candidate content pos) tries) with
       | Some c => Some c
       | None =>
           match first with
           | Some f => Some f
           | None => head (map (candidate content pos) tries)
           end
       end).
Proof.
  intros E. revert first.
  induction tries as [|d tries IH]; intros first; [now destruct first|].
  cbn [adjust_loop map List.find head].
  rewrite (placement_resolved h d content origin pos E).
  change (Return (offset_for d (dimension content) pos) ≫= ?f)
    with (f (offset_for d (dimension content) pos)).
  cbv beta. unfold fits at 1, container, candidate at 1. cbn [offset].
  destruct (overDirs h _ _) eqn:Ho; [reflexivity|].
  rewrite IH. destruct (List.find _ _); [reflexivity|].
  now destruct first.
Qed.

(** C2. With an origin that resolves (anything but [undefined] and
    [null]) and a non-empty priority list, [adjust] returns a placement: the
    first direction of the list, in order, whose offset overflows on no side,
    with that offset; and when every direction overflows, the first
    direction of the list with its offset. *)
Theorem adjust_first_fit (h : host) (content : element) (p : props)
    (pos : obj) (d0 : string) (rest : list string) :
  origin_pos h (originOrEl p) = Return pos ->
  priority p = d0 :: rest ->
  adjust h content p
  = Return (Some
      (match List.find (fits h (p_within p)) (map (candidate content pos) (d0 :: rest)) with
       | Some c => c
       | None => candidate content pos d0
       end)).
Proof.
  intros E P. unfold adjust.
  rewrite (adjust_loop_first_fit h content _ pos _ _ None E), P.
  destruct (List.find _ _); reflexivity.
Qed.

(** Near the top edge of a 100 by 100 window: "top" overflows, "bottom" is
    next in the list and fits. *)
Lemma adjust_first_fit_witness :
  let h := window_of 100 100 in
  let content := element_at 0 0 40 20 in
  let p := {| p_auto := false; p_within := None; p_place := OneDir "top, bottom";
              p_origin := Elem (element_at 5 50 0 0); p_el := Prim Undefined |} in
  exists c, adjust h content p = Return (Some c) /\ place c = "bottom" /\
            offset c !!! "top" = Str "17px" /\ offset c !!! "left" = Str "30px".
Proof.
  intros h content p.
  eexists. split.
  - apply (adjust_first_fit h content p
             (position h (Some (element_at 5 50 0 0))) "top" ["bottom"]).
    + reflexivity.
    + vm_compute. reflexivity.
  - vm_compute. repeat split.
Defined.

(** ** The offset above the origin *)

Lemma dimension_width content :
  dimension content !!! "width" = Num (rect_width (bounds content)).
Proof. destruct content as [[]]. reflexivity. Qed.

Lemma dimension_height content :
  dimension content !!! "height" = Num (rect_height (bounds content)).
Proof. destruct content as [[]]. reflexivity. Qed.

Lemma offset_fields (w hh l t : value) :
  <["top" := t]> (<["left" := l]> (list_to_map [("width", w); ("height", hh)]))
  = (list_to_map [("width", w); ("height", hh); ("left", l); ("top", t)] : obj).
Proof. vm_compute. reflexivity. Qed.

(** The offset for "top", whatever the fields of [pos] hold. *)
Lemma offset_for_top content pos :
  offset_for "top" (dimension content) pos
  = list_to_map
      [("width", Num (rect_width (bounds content)));
       ("height", Num (rect_height (bounds content)));
       ("left", px (sub (add (pos !!! "left") (mul (pos !!! "width") half))
                        (mul (Num (rect_width (bounds content))) half)));
       ("top", px (sub (sub (pos !!! "top") (Num (rect_height (bounds content)))) gap))].
Proof.
  unfold offset_for. rewrite dimension_width, dimension_height.
  apply offset_fields.
Qed.

(** C6. For "top", with the origin resolved to a rectangle [pos] of numeric
    [left], [width] and [top], the offset has
    [left = pos.left + pos.width * 0.5 - content.width * 0.5] and
    [top = pos.top - content.height - 12], both written as pixel strings,
    beside the content's own width and height as numbers. *)
Theorem placement_top_centered (h : host) (content : element) (origin : jsval)
    (pos : obj) (l w t : num) :
  origin_pos h origin = Return pos ->
  pos !!! "left" = Num l -> pos !!! "width" = Num w -> pos !!! "top" = Num t ->
  let cw := rect_width (bounds content) in
  let ch := rect_height (bounds content) in
  placement h "top" content origin
  = Return (list_to_map
      [("width", Num cw); ("height", Num ch);
       ("left", Str (toString (l + w * 0.5 - cw * 0.5)%float ++ "px"));
       ("top", Str (toString (t - ch - 12)%float ++ "px"))]).
Proof.
  intros E Hl Hw Ht cw ch.
  rewrite (placement_resolved _ _ _ _ _ E), offset_for_top, Hl, Hw, Ht.
  reflexivity.
Qed.

(** An element measured at (100, 100), 30 wide, in an unscrolled window. *)
Lemma placement_top_centered_witness :
  placement (window_of 1000 1000) "top" (element_at 0 0 40 20)
            (Elem (element_at 100 100 30 10))
  = Return (list_to_map
      [("width", Num 40); ("height", Num 20);
       ("left", Str "95px"); ("top", Str "68px")]).
Proof.
  exact (placement_top_centered (window_of 1000 1000) (element_at 0 0 40 20)
           (Elem (element_at 100 100 30 10))
           (position (window_of 1000 1000) (Some (element_at 100 100 30 10)))
           100 30 100 eq_refl eq_refl eq_refl eq_refl).
Defined.

(** ** End to end *)

(** On the plain rectangle object [{top: 100, left: 100, width: 0,
    height: 0}] [placement] reads [origin.x] and [origin.y], which are not
    there: the offsets are "NaNpx", they overflow nowhere, and [adjust]
    returns them. *)
Lemma adjust_rectangle_object_NaN :
  adjust (window_of 1000 1000) (element_at 0 0 40 20)
         (scenario false None rectangle_origin (Prim Undefined))
  = Return (Some {| offset := list_to_map
                      [("width", Num 40); ("height", Num 20);
                       ("left", Str "NaNpx"); ("top", Str "NaNpx")];
                    place := "top" |}) /\
  ~ placed_top_68_80
      (adjust (window_of 1000 1000) (element_at 0 0 40 20)
              (scenario false None rectangle_origin (Prim Undefined))).
Proof.
  assert (E : adjust (window_of 1000 1000) (element_at 0 0 40 20)
                (scenario false None rectangle_origin (Prim Undefined))
              = Return (Some {| offset := list_to_map
                      [("width", Num 40); ("height", Num 20);
                       ("left", Str "NaNpx"); ("top", Str "NaNpx")];
                    place := "top" |})).
  { vm_compute. reflexivity. }
  split; [exact E|].
  intros (c & Hc & _ & Ht & _). rewrite E in Hc.
  injection Hc as <-. vm_compute in Ht. discriminate Ht.
Qed.

Lemma priority_scenario auto within origin el :
  exists rest, priority (scenario auto within origin el) = "top" :: rest.
Proof. destruct auto; vm_compute; eauto. Qed.

(** C1, as amended.  With a content element 40 wide and 20 high, place
    'top' and the origin given as the point [{x: 100, y: 100}], in a viewport
    where that offset overflows on no side, [adjust] returns place 'top'
    with [offset.top = '68px'] and [offset.left = '80px']. *)
Theorem adjust_point_top (h : host) (content : element) (auto : bool)
    (within : option (unit -> option element)) (el : jsval) :
  rect_width (bounds content) = 40%float ->
  rect_height (bounds content) = 20%float ->
  overDirs h offset_68_80 (container within) = [] ->
  adjust h content (scenario auto within point_origin el)
  = Return (Some {| offset := offset_68_80; place := "top" |}) /\
  placed_top_68_80 (adjust h content (scenario auto within point_origin el)).
Proof.
  intros Hw Hh Ho.
  assert (E : adjust h content (scenario auto within point_origin el)
              = Return (Some {| offset := offset_68_80; place := "top" |})).
  { destruct (priority_scenario auto within point_origin el) as [rest P].
    pose (pos := list_to_map
           [("top", Num 100%float); ("right", Num 100%float);
            ("bottom", Num 100%float); ("left", Num 100%float);
            ("width", Num 0%float); ("height", Num 0%float)] : obj).
    rewrite (adjust_first_fit h content _ pos "top" rest); [|reflexivity|exact P].
    assert (C : candidate content pos "top"
                = {| offset := offset_68_80; place := "top" |}).
    { unfold candidate. rewrite offset_for_top, Hw, Hh. reflexivity. }
    cbn [map List.find]. rewrite C. unfold fits. cbn [offset p_within scenario].
    rewrite Ho. reflexivity. }
  split; [exact E|].
  rewrite E. eexists. split; [reflexivity|]. repeat split.
Qed.

(** A 1000 by 1000 window, nothing scrolled. *)
Lemma adjust_point_top_witness :
  placed_top_68_80
    (adjust (window_of 1000 1000) (element_at 0 0 40 20)
            (scenario false None point_origin (Prim Undefined))).
Proof.
  apply (adjust_point_top (window_of 1000 1000) (element_at 0 0 40 20)
           false None (Prim Undefined)).
  - reflexivity.
  - reflexivity.
  - vm_compute. reflexivity.
Defined.

(** ** The rectangle invariant *)

Lemma Num_neq x y : PrimFloat.Leibniz.eqb x y = false -> Num x <> Num y.
Proof.
  intros H E. injection E as E.
  apply FloatAxioms.Leibniz.eqb_spec in E. congruence.
Qed.

(** The intersection of [area_from_02] and [area_upto_09] has [left = 0.2]
    and [right = 0.9]; its [width] is [0.9 - 0.2], that is 0.7, and
    [0.2 + 0.7] is 0.8999999999999999 in binary64, not 0.9. *)
Lemma intersection_sum_rounds :
  intersection area_from_02 area_upto_09 !!! "left" = Num 0.2 /\
  intersection area_from_02 area_upto_09 !!! "right" = Num 0.9 /\
  intersection area_from_02 area_upto_09 !!! "width" = Num 0.7 /\
  ToString (add (intersection area_from_02 area_upto_09 !!! "left")
                (intersection area_from_02 area_upto_09 !!! "width"))
  = "0.8999999999999999" /\
  ~ rect_invariant (intersection area_from_02 area_upto_09).
Proof.
  repeat split; try (vm_compute; reflexivity).
  intros [H _]. revert H. vm_compute. apply Num_neq. reflexivity.
Qed.

Lemma intersection_differences a b :
  intersection a b !!! "width"
  = sub (intersection a b !!! "right") (intersection a b !!! "left") /\
  intersection a b !!! "height"
  = sub (intersection a b !!! "bottom") (intersection a b !!! "top").
Proof.
  unfold intersection.
  generalize (Math_max (a !!! "top") (b !!! "top"))
    (Math_min (add (a !!! "left") (a !!! "width")) (add (b !!! "left") (b !!! "width")))
    (Math_min (add (a !!! "top") (a !!! "height")) (add (b !!! "top") (b !!! "height")))
    (Math_max (a !!! "left") (b !!! "left")).
  intros t r bt l. cbv zeta.
  set (A := <["left" := l]> (<["bottom" := bt]> (<["right" := r]> (<["top" := t]> ∅))) : obj).
  clearbody A. split.
  - rewrite lookup_total_insert_eq.
    rewrite !(lookup_total_insert_ne _ "width") by discriminate.
    rewrite !(lookup_total_insert_ne _ "height") by discriminate. reflexivity.
  - rewrite !(lookup_total_insert_ne _ "width") by discriminate.
    rewrite lookup_total_insert_eq.
    rewrite !(lookup_total_insert_ne _ "height") by discriminate. reflexivity.
Qed.

Lemma amend_derives_right r :
  is_number (strip r !!! "right") = false ->
  is_number (strip r !!! "width") = true ->
  amend r !!! "right" = add (amend r !!! "left") (amend r !!! "width").
Proof.
  intros Hr Hw. rewrite amend_steps.
  rewrite !(derive_other _ "bottom") by discriminate.
  generalize dependent (strip r). intros d0 Hr Hw.
  assert (Hr2 : is_number (default_zero (default_zero d0 "top") "left" !!! "right") = false).
  { now rewrite !default_zero_other by discriminate. }
  assert (Hw2 : is_number (default_zero (default_zero d0 "top") "left" !!! "width") = true).
  { now rewrite !default_zero_other by discriminate. }
  generalize dependent (default_zero (default_zero d0 "top") "left").
  intros d2 Hr2 Hw2.
  rewrite (derive_same d2 "right" "left" "width" Hr2 Hw2).
  now rewrite !(derive_other d2 "right") by discriminate.
Qed.

Lemma amend_derives_bottom r :
  is_number (strip r !!! "bottom") = false ->
  is_number (strip r !!! "height") = true ->
  amend r !!! "bottom" = add (amend r !!! "top") (amend r !!! "height").
Proof.
  intros Hb Hh. rewrite amend_steps.
  generalize dependent (strip r). intros d0 Hb Hh.
  assert (Hb3 : is_number (derive (default_zero (default_zero d0 "top") "left")
                             "right" "left" "width" !!! "bottom") = false).
  { rewrite derive_other by discriminate.
    now rewrite !default_zero_other by discriminate. }
  assert (Hh3 : is_number (derive (default_zero (default_zero d0 "top") "left")
                             "right" "left" "width" !!! "height") = true).
  { rewrite derive_other by discriminate.
    now rewrite !default_zero_other by discriminate. }
  generalize dependent (derive (default_zero (default_zero d0 "top") "left")
                          "right" "left" "width").
  intros d3 Hb3 Hh3.
  rewrite (derive_same d3 "bottom" "top" "height" Hb3 Hh3).
  now rewrite !(derive_other d3 "bottom") by discriminate.
Qed.

(** C9, as amended.  The output of [intersection] has
    [width = right - left] and [height = bottom - top], each the binary64
    difference; and when [amend] derives a missing [right] or [bottom] (the
    stripped value is no number while [width], respectively [height], is
    one), its output has [right = left + width], respectively
    [bottom = top + height], exactly. *)
Theorem rectangle_edges_derived (a b r : obj) :
  (intersection a b !!! "width"
   = sub (intersection a b !!! "right") (intersection a b !!! "left") /\
   intersection a b !!! "height"
   = sub (intersection a b !!! "bottom") (intersection a b !!! "top")) /\
  (is_number (strip r !!! "right") = false ->
   is_number (strip r !!! "width") = true ->
   amend r !!! "right" = add (amend r !!! "left") (amend r !!! "width")) /\
  (is_number (strip r !!! "bottom") = false ->
   is_number (strip r !!! "height") = true ->
   amend r !!! "bottom" = add (amend r !!! "top") (amend r !!! "height")).
Proof.
  split; [apply intersection_differences|].
  split; [apply amend_derives_right|apply amend_derives_bottom].
Qed.

(** * Further properties of the utilities *)

(** ** Errors and edge cases of [placement] and [adjust] *)

Lemma origin_pos_nullish h origin :
  nullish origin = true -> origin_pos h origin = Throw TypeError.
Proof. destruct origin as [[]| |]; try discriminate; reflexivity. Qed.

Lemma origin_pos_resolves h origin :
  nullish origin = false -> exists pos, origin_pos h origin = Return pos.
Proof. destruct origin as [[]| |]; try discriminate; cbn [origin_pos]; eauto. Qed.


Lemma split_nonempty sep s : split sep s <> [].
Proof.
  destruct s as [|c t]; cbn [split]; [discriminate|].
  destruct (Ascii.eqb c sep); [discriminate|]. destruct (split sep t); discriminate.
Qed.

Lemma complete_nonempty dir : complete dir <> [].
Proof.
  rewrite complete_missing. destruct (dir_list dir) as [|d l]; [|discriminate].
  cbn. discriminate.
Qed.

(** The priority list is empty only for an empty array without [auto]. *)
Lemma priority_empty_iff p :
  priority p = [] <-> p_place p = ManyDirs [] /\ p_auto p = false.
Proof.
  unfold priority. split.
  - destruct (p_auto p); [intros H; now apply complete_nonempty in H|].
    destruct (p_place p) as [s|l]; intros H.
    + apply map_eq_nil in H. now apply split_nonempty in H.
    + now subst.
  - intros [-> ->]. reflexivity.
Qed.

Lemma adjust_loop_throws h content origin within d tries first :
  nullish origin = true ->
  adjust_loop h content origin within (d :: tries) first = Throw TypeError.
Proof.
  intros N. cbn [adjust_loop]. unfold placement.
  rewrite (origin_pos_nullish h origin N). reflexivity.
Qed.

(** The three outcomes of [adjust]. *)
Lemma adjust_outcome h content p :
  match priority p with
  | [] => adjust h content p = Return None
  | d :: rest =>
      if nullish (originOrEl p) then adjust h content p = Throw TypeError
      else exists r, adjust h content p = Return (Some r)
  end.
Proof.
  unfold adjust. destruct (priority p) as [|d rest] eqn:P; [reflexivity|].
  destruct (nullish (originOrEl p)) eqn:N.
  - now apply adjust_loop_throws.
  - destruct (origin_pos_resolves h _ N) as [pos E].
    rewrite (adjust_loop_first_fit h content _ pos _ _ None E).
    destruct (List.find _ _); cbn [map head]; eauto.
Qed.

(** X2. [adjust] returns [undefined] exactly when [place] is an empty
    array and [auto] is not set: a place given as a string, even the empty
    string, or any list completed by [auto], always leaves something to
    try. *)
Theorem adjust_undefined_iff (h : host) (content : element) (p : props) :
  adjust h content p = Return None <-> p_place p = ManyDirs [] /\ p_auto p = false.
Proof.
  rewrite <- priority_empty_iff. pose proof (adjust_outcome h content p) as O.
  destruct (priority p) as [|d rest]; [tauto|].
  split; [|discriminate]. intros E.
  destruct (nullish (originOrEl p)); [congruence|].
  destruct O as [r O]. congruence.
Qed.


(** X4. Whatever [adjust] returns is one of the attempts: its [place] is an
    entry of the priority list and its [offset] is what [placement] computes
    for that place. *)
Theorem adjust_returns_an_attempt (h : host) (content : element) (p : props)
    (r : placed) :
  adjust h content p = Return (Some r) ->
  In (place r) (priority p) /\
  placement h (place r) content (originOrEl p) = Return (offset r).
Proof.
  intros A. pose proof (adjust_outcome h content p) as O.
  destruct (priority p) as [|d rest] eqn:P; [congruence|].
  destruct (nullish (originOrEl p)) eqn:N; [congruence|]. clear O.
  destruct (origin_pos_resolves h _ N) as [pos E].
  unfold adjust in A.
  rewrite (adjust_loop_first_fit h content _ pos _ _ None E), P in A.
  assert (C : exists d', In d' (d :: rest) /\ r = candidate content pos d').
  { destruct (List.find _ _) as [c|] eqn:F.
    - apply find_some in F as [F _]. apply in_map_iff in F as (d' & <- & F).
      injection A as <-. eauto.
    - cbn [map head] in A. injection A as <-. exists d. split; [now left|reflexivity]. }
  destruct C as (d' & Hd & ->). cbn [place offset candidate].
  split; [exact Hd|]. now apply placement_resolved.
Qed.

(** The fallback of [adjust_first_fit_witness] again. *)
Lemma adjust_returns_an_attempt_witness :
  let h := window_of 100 100 in
  let content := element_at 0 0 40 20 in
  let p := {| p_auto := false; p_within := None; p_place := OneDir "top, bottom";
              p_origin := Elem (element_at 5 50 0 0); p_el := Prim Undefined |} in
  let r := candidate content (position h (Some (element_at 5 50 0 0))) "bottom" in
  In (place r) (priority p) /\
  placement h (place r) content (originOrEl p) = Return (offset r).
Proof.
  intros h content p r.
  apply (adjust_returns_an_attempt h content p r).
  vm_compute. reflexivity.
Defined.

(** ** More on direction completion *)

Lemma mem_app d l m : mem d (l ++ m)%list = mem d l || mem d m.
Proof. apply existsb_app. Qed.

Lemma missing_nothing_twice l :
  List.filter
    (fun d => negb (mem d (l ++ List.filter (fun d => negb (mem d l)) DIRS)%list)) DIRS
  = [].
Proof.
  unfold DIRS. cbn [List.filter].
  destruct (mem "top" l) eqn:E1, (mem "right" l) eqn:E2,
    (mem "bottom" l) eqn:E3, (mem "left" l) eqn:E4; cbn [negb];
    rewrite !mem_app, ?E1, ?E2, ?E3, ?E4; reflexivity.
Qed.

(** X5. Completing a completed list adds nothing. *)
Theorem complete_idempotent (dir : dirs) :
  complete (ManyDirs (complete dir)) = complete dir.
Proof.
  rewrite (complete_missing (ManyDirs _)). cbn [dir_list].
  rewrite (complete_missing dir) at 2. rewrite (complete_missing dir).
  rewrite missing_nothing_twice. apply app_nil_r.
Qed.

Lemma In_complete d dir :
  In d (complete dir) <-> In d (dir_list dir) \/ (In d DIRS /\ ~ In d (dir_list dir)).
Proof.
  rewrite complete_missing, in_app_iff, filter_In, negb_true_iff.
  rewrite <- (mem_In d (dir_list dir)). destruct (mem d (dir_list dir)); intuition congruence.
Qed.

Lemma NoDup_DIRS : List.NoDup DIRS.
Proof.
  unfold DIRS.
  repeat (apply List.NoDup_cons; [cbn [In]; intuition discriminate|]).
  apply List.NoDup_nil.
Qed.

(** X6. Completing a list of canonical directions that repeats none gives a
    permutation of the four directions: each is then tried exactly once. *)
Theorem complete_permutation (l : list string) :
  List.NoDup l -> (forall d, In d l -> In d DIRS) ->
  Permutation (complete (ManyDirs l)) DIRS.
Proof.
  intros Hn Hsub. apply Permutation.NoDup_Permutation.
  - rewrite complete_missing. cbn [dir_list].
    apply List.NoDup_app; [exact Hn|apply List.NoDup_filter, NoDup_DIRS|].
    intros d Hd Hm. apply filter_In in Hm as [_ Hm].
    apply negb_true_iff in Hm. apply mem_In in Hd. congruence.
  - apply NoDup_DIRS.
  - intros d. rewrite In_complete. cbn [dir_list]. split.
    + intros [H|[H _]]; auto.
    + intros H. destruct (in_dec string_dec d l); auto.
Qed.

Lemma complete_permutation_witness :
  Permutation (complete (ManyDirs ["left"; "top"])) DIRS.
Proof.
  apply (complete_permutation ["left"; "top"]).
  - repeat (apply List.NoDup_cons; [cbn [In]; intuition discriminate|]).
    apply List.NoDup_nil.
  - unfold DIRS. cbn [In]. intuition.
Defined.

(** ** The offsets of the other directions *)

(** The two [switch] statements of [placement] as one case distinction on
    the direction. *)
Lemma offset_for_cases place dim pos :
  offset_for place dim pos =
  let offset : obj :=
    list_to_map [("width", dim !!! "width"); ("height", dim !!! "height")] in
  if String.eqb place "top" then
    <["top" := px (sub (sub (pos !!! "top") (dim !!! "height")) gap)]>
      (<["left" := centre_left dim pos]> offset)
  else if String.eqb place "right" then
    <["left" := px (add (pos !!! "right") gap)]>
      (<["top" := centre_top dim pos]> offset)
  else if String.eqb place "bottom" then
    <["top" := px (add (add (pos !!! "top") (pos !!! "height")) gap)]>
      (<["left" := centre_left dim pos]> offset)
  else if String.eqb place "left" then
    <["left" := px (sub (sub (pos !!! "left") (dim !!! "width")) gap)]>
      (<["top" := centre_top dim pos]> offset)
  else offset.
Proof.
  unfold offset_for, centre_left, centre_top. cbv zeta.
  generalize (px (sub (sub (pos !!! "top") (dim !!! "height")) gap))
   (px (sub (add (pos !!! "left") (mul (pos !!! "width") half)) (mul (dim !!! "width") half)))
   (px (add (pos !!! "right") gap))
   (px (sub (add (pos !!! "top") (mul (pos !!! "height") half)) (mul (dim !!! "height") half)))
   (px (add (add (pos !!! "top") (pos !!! "height")) gap))
   (px (sub (sub (pos !!! "left") (dim !!! "width")) gap))
   (list_to_map [("width", dim !!! "width"); ("height", dim !!! "height")] : obj).
  intros v1 v2 v3 v4 v5 v6 o.
  repeat match goal with
         | |- context [match ?s with EmptyString => _ | String _ _ => _ end] =>
             is_var s; destruct s; cbn [String.eqb Ascii.eqb Bool.eqb]
         | |- context [match ?a with Ascii _ _ _ _ _ _ _ _ => _ end] =>
             is_var a; destruct a; cbn [String.eqb Ascii.eqb Bool.eqb]
         | |- context [if ?b then _ else _] =>
             is_var b; destruct b; cbn [String.eqb Ascii.eqb Bool.eqb]
         end; try reflexivity.
Qed.

Lemma offset_fields_lt (w hh l t : value) :
  <["left" := l]> (<["top" := t]> (list_to_map [("width", w); ("height", hh)]))
  = (list_to_map [("width", w); ("height", hh); ("left", l); ("top", t)] : obj).
Proof. vm_compute. reflexivity. Qed.

(** X7. For "bottom", "right" and "left", with the origin resolved to a
    rectangle [pos] of numeric fields: "bottom" centres horizontally and puts
    the top at [pos.top + pos.height + 12]; "right" centres vertically and
    puts the left at [pos.right + 12]; "left" centres vertically and puts
    the left at [pos.left - content.width - 12]. *)
Theorem placement_other_sides (h : host) (content : element) (origin : jsval)
    (pos : obj) (t l r w hh : num) :
  origin_pos h origin = Return pos ->
  pos !!! "top" = Num t -> pos !!! "left" = Num l -> pos !!! "right" = Num r ->
  pos !!! "width" = Num w -> pos !!! "height" = Num hh ->
  let cw := rect_width (bounds content) in
  let ch := rect_height (bounds content) in
  let offset (left top : num) : completion obj :=
    Return (list_to_map
      [("width", Num cw); ("height", Num ch);
       ("left", Str (toString left ++ "px")); ("top", Str (toString top ++ "px"))]) in
  placement h "bottom" content origin
    = offset (l + w * 0.5 - cw * 0.5)%float (t + hh + 12)%float /\
  placement h "right" content origin
    = offset (r + 12)%float (t + hh * 0.5 - ch * 0.5)%float /\
  placement h "left" content origin
    = offset (l - cw - 12)%float (t + hh * 0.5 - ch * 0.5)%float.
Proof.
  intros E Ht Hl Hr Hw Hh cw ch offset. unfold offset.
  rewrite !(placement_resolved _ _ _ _ _ E), !offset_for_cases.
  cbn [String.eqb Ascii.eqb Bool.eqb]. unfold centre_left, centre_top. cbv zeta.
  rewrite dimension_width, dimension_height, Ht, Hl, Hr, Hw, Hh.
  fold cw ch. rewrite offset_fields, !offset_fields_lt.
  repeat split.
Qed.

Lemma placement_other_sides_witness :
  placement (window_of 1000 1000) "bottom" (element_at 0 0 40 20)
            (Elem (element_at 100 100 30 10))
  = Return (list_to_map [("width", Num 40); ("height", Num 20);
                         ("left", Str "95px"); ("top", Str "122px")]) /\
  placement (window_of 1000 1000) "right" (element_at 0 0 40 20)
            (Elem (element_at 100 100 30 10))
  = Return (list_to_map [("width", Num 40); ("height", Num 20);
                         ("left", Str "142px"); ("top", Str "95px")]) /\
  placement (window_of 1000 1000) "left" (element_at 0 0 40 20)
            (Elem (element_at 100 100 30 10))
  = Return (list_to_map [("width", Num 40); ("height", Num 20);
                         ("left", Str "48px"); ("top", Str "95px")]).
Proof.
  exact (placement_other_sides (window_of 1000 1000) (element_at 0 0 40 20)
           (Elem (element_at 100 100 30 10))
           (position (window_of 1000 1000) (Some (element_at 100 100 30 10)))
           100 100 130 30 10 eq_refl eq_refl eq_refl eq_refl eq_refl eq_refl).
Defined.



(** ** Origins that cannot be located *)

Lemma nan_add_r x : PrimFloat.add x PrimFloat.nan = PrimFloat.nan.
Proof.
  apply Prim2SF_inj. rewrite add_spec. change (Prim2SF PrimFloat.nan) with S754_nan.
  destruct (Prim2SF x) as [[]|[]| |[] ? ?]; reflexivity.
Qed.


Lemma ltb_nan_l x : PrimFloat.ltb PrimFloat.nan x = false.
Proof. rewrite ltb_spec. reflexivity. Qed.

Lemma ltb_nan_r x : PrimFloat.ltb x PrimFloat.nan = false.
Proof.
  rewrite ltb_spec. change (Prim2SF PrimFloat.nan) with S754_nan.
  destruct (Prim2SF x) as [[]|[]| |[] ? ?]; reflexivity.
Qed.

Lemma lt_nan_l v : lt (Num PrimFloat.nan) v = false.
Proof. destruct v; apply ltb_nan_l. Qed.

Lemma lt_nan_r v : lt v (Num PrimFloat.nan) = false.
Proof. destruct v; apply ltb_nan_r. Qed.





Lemma overDirs_NaN h tip el :
  (forall k, In k DIRS -> amend tip !!! k = Num PrimFloat.nan) ->
  overDirs h tip el = [].
Proof.
  intros H. rewrite overDirs_filter. unfold DIRS in *. cbn [In] in H.
  cbn [List.filter exceeds].
  rewrite (H "top"), (H "right"), (H "bottom"), (H "left") by tauto.
  now rewrite !lt_nan_l, !lt_nan_r.
Qed.

(** X9. A tip whose four amended edges are NaN overflows nowhere, whatever
    the viewport and the container. *)
Theorem overDirs_NaN_tip (h : host) (tip : obj) (el : option element) :
  (forall k, In k DIRS -> amend tip !!! k = Num PrimFloat.nan) ->
  overDirs h tip el = [].
Proof. apply overDirs_NaN. Qed.

Lemma amend_offset_NaN_sums w hh :
  amend (list_to_map [("width", Num w); ("height", Num hh);
                      ("left", Str "NaNpx"); ("top", Str "NaNpx")])
  = list_to_map
      [("width", Num w); ("height", Num hh);
       ("left", Num PrimFloat.nan); ("top", Num PrimFloat.nan);
       ("right", Num (PrimFloat.add PrimFloat.nan w));
       ("bottom", Num (PrimFloat.add PrimFloat.nan hh))].
Proof. vm_compute. reflexivity. Qed.

Lemma amend_offset_NaN content :
  amend (offset_NaN content)
  = list_to_map
      [("width", Num (rect_width (bounds content)));
       ("height", Num (rect_height (bounds content)));
       ("left", Num PrimFloat.nan); ("top", Num PrimFloat.nan);
       ("right", Num PrimFloat.nan); ("bottom", Num PrimFloat.nan)].
Proof.
  unfold offset_NaN. rewrite amend_offset_NaN_sums, !nan_add_l. reflexivity.
Qed.


Lemma overDirs_NaN_tip_witness :
  overDirs (window_of 10 10) (offset_NaN (element_at 0 0 40 20)) None = [].
Proof.
  apply (overDirs_NaN_tip (window_of 10 10) (offset_NaN (element_at 0 0 40 20)) None).
  intros k Hk. rewrite amend_offset_NaN.
  unfold DIRS in Hk. cbn [In] in Hk.
  destruct Hk as [<-|[<-|[<-|[<-|[]]]]]; reflexivity.
Defined.








(** ** More on [strip] and [amend] *)

Lemma strip_prop_lookup d p k :
  strip_prop d p !! k = if decide (p = k) then parsed (d !! k) else d !! k.
Proof.
  unfold strip_prop. rewrite lookup_total_alt.
  destruct (decide (p = k)) as [->|N].
  - destruct (d !! k) as [[]|] eqn:E; cbn -[insert lookup];
      rewrite ?E; try reflexivity.
    now rewrite lookup_insert_eq.
  - destruct (default inhabitant (d !! p)); try reflexivity.
    now rewrite lookup_insert_ne.
Qed.

Lemma strip_lookup_in o k : In k STRIP_FOR -> strip o !! k = parsed (o !! k).
Proof.
  intros Hk. rewrite strip_unfold, !strip_prop_lookup.
  unfold STRIP_FOR in Hk. cbn [In] in Hk.
  destruct Hk as [<-|[<-|[<-|[<-|[<-|[<-|[]]]]]]];
    repeat (case_decide; try congruence); reflexivity.
Qed.

Lemma strip_lookup_out o k : ~ In k STRIP_FOR -> strip o !! k = o !! k.
Proof.
  intros Hk. rewrite strip_unfold, !strip_prop_lookup.
  unfold STRIP_FOR in Hk. cbn [In] in Hk.
  repeat (case_decide; [exfalso; apply Hk; subst; tauto|]). reflexivity.
Qed.

(** X11. [strip] works property by property: among the six rectangle
    properties a string value is replaced by the number [parseFloat] reads
    once the first "px" is removed; every other value and every other
    property is kept, and no property is added or removed. *)
Theorem strip_by_property (o : obj) (k : string) :
  strip o !! k = (if mem k STRIP_FOR then parsed (o !! k) else o !! k) /\
  dom (strip o) = dom o.
Proof.
  assert (L : forall k, strip o !! k
                        = if mem k STRIP_FOR then parsed (o !! k) else o !! k).
  { intros j. destruct (mem j STRIP_FOR) eqn:M.
    - apply strip_lookup_in, mem_In, M.
    - apply strip_lookup_out. rewrite <- mem_In. congruence. }
  split; [apply L|].
  apply set_eq. intros j. rewrite !elem_of_dom, L.
  destruct (mem j STRIP_FOR); [|reflexivity].
  destruct (o !! j) as [[]|]; cbn [parsed]; split; intros [? ?]; eauto; discriminate.
Qed.

(** X12. [strip] is idempotent. *)
Theorem strip_idempotent (o : obj) : strip (strip o) = strip o.
Proof. apply strip_id, strip_stripped. Qed.

Lemma default_zero_lookup d k j : k <> j -> default_zero d k !! j = d !! j.
Proof.
  intros N. unfold default_zero. destruct (negb _); [|reflexivity].
  now rewrite lookup_insert_ne.
Qed.

Lemma derive_lookup d k a b j : k <> j -> derive d k a b !! j = d !! j.
Proof.
  intros N. unfold derive. destruct (_ && _); [|reflexivity].
  now rewrite lookup_insert_ne.
Qed.

Lemma amend_lookup_other r k : ~ In k DIRS -> amend r !! k = strip r !! k.
Proof.
  intros Hk. unfold DIRS in Hk. cbn [In] in Hk. rewrite amend_steps.
  rewrite !derive_lookup, !default_zero_lookup; try reflexivity;
    intros <-; apply Hk; tauto.
Qed.

(** X13. [amend] writes only [top], [left], [right] and [bottom]: every
    other property is as [strip] leaves it (so [width] and [height] are only
    parsed), and a property outside the six is the caller's, untouched. *)
Theorem amend_writes_edges_only (r : obj) (k : string) :
  ~ In k DIRS ->
  amend r !! k = strip r !! k /\ (~ In k STRIP_FOR -> amend r !! k = r !! k).
Proof.
  intros Hk. split; [now apply amend_lookup_other|].
  intros Hs. rewrite amend_lookup_other by exact Hk. now apply strip_lookup_out.
Qed.

Lemma amend_writes_edges_only_witness :
  amend offset_68_80 !! "width" = strip offset_68_80 !! "width" /\
  (~ In "width" STRIP_FOR -> amend offset_68_80 !! "width" = offset_68_80 !! "width").
Proof.
  apply (amend_writes_edges_only offset_68_80 "width").
  unfold DIRS. cbn [In]. intuition discriminate.
Defined.

Lemma full_rectangle_amended r : full_rectangle r -> amended r.
Proof.
  intros F. unfold full_rectangle, STRIP_FOR in F. cbn [In] in F.
  split; [|split; [|split; [|split]]].
  - intros k Hk. apply is_number_not_string, F. exact Hk.
  - apply F. tauto.
  - apply F. tauto.
  - rewrite (F "right") by tauto. reflexivity.
  - rewrite (F "bottom") by tauto. reflexivity.
Qed.

(** X14. A full rectangle, its six fields numbers, is returned by [amend]
    unchanged. *)
Theorem amend_full_rectangle (r : obj) : full_rectangle r -> amend r = r.
Proof. intros F. apply amended_fixed, full_rectangle_amended, F. Qed.

Lemma amend_full_rectangle_witness :
  amend (position (window_of 1000 1000) (Some (element_at 100 100 30 10)))
  = position (window_of 1000 1000) (Some (element_at 100 100 30 10)).
Proof.
  apply (amend_full_rectangle
           (position (window_of 1000 1000) (Some (element_at 100 100 30 10)))).
  intros k Hk. unfold STRIP_FOR in Hk. cbn [In] in Hk.
  destruct Hk as [<-|[<-|[<-|[<-|[<-|[<-|[]]]]]]]; reflexivity.
Defined.

Lemma amend_total_other r k :
  ~ In k DIRS -> amend r !!! k = strip r !!! k.
Proof. intros Hk. rewrite !lookup_total_alt. now rewrite amend_lookup_other. Qed.

(** X15. [amend] completes minimum data: as soon as [width] and [height]
    are numbers or strings that [strip] parsed, all six fields of the result
    are numbers. *)
Theorem amend_makes_full (r : obj) :
  is_number (strip r !!! "width") = true ->
  is_number (strip r !!! "height") = true ->
  full_rectangle (amend r).
Proof.
  intros Hw Hh. destruct (amend_amended r) as (_ & Ht & Hl & Hr & Hb).
  rewrite <- (amend_total_other r "width") in Hw
    by (unfold DIRS; cbn [In]; intuition discriminate).
  rewrite <- (amend_total_other r "height") in Hh
    by (unfold DIRS; cbn [In]; intuition discriminate).
  rewrite Hw in Hr. rewrite Hh in Hb.
  rewrite andb_true_r in Hr, Hb. apply negb_false_iff in Hr, Hb.
  intros k Hk. unfold STRIP_FOR in Hk. cbn [In] in Hk.
  destruct Hk as [<-|[<-|[<-|[<-|[<-|[<-|[]]]]]]]; assumption.
Qed.

Lemma amend_makes_full_witness : full_rectangle (amend offset_68_80).
Proof.
  apply (amend_makes_full offset_68_80); vm_compute; reflexivity.
Defined.

(** X16. Amending the tip beforehand changes nothing for [overDirs]. *)
Theorem overDirs_of_amended (h : host) (tip : obj) (el : option element) :
  overDirs h (amend tip) el = overDirs h tip el.
Proof.
  rewrite !overDirs_filter.
  now rewrite (amended_fixed (amend tip) (amend_amended tip)).
Qed.

(** ** More on [intersection] and the reference area *)

Lemma ltb_irrefl x : PrimFloat.ltb x x = false.
Proof.
  rewrite ltb_spec. unfold SFltb.
  destruct (Prim2SF x) as [[]|[]| |[] m e]; cbn [SFcompare]; try reflexivity;
    now rewrite Z.compare_refl, Pos.compare_cont_refl.
Qed.

Lemma ltb_asym x y : PrimFloat.ltb x y = true -> PrimFloat.ltb y x = false.
Proof.
  rewrite !ltb_spec. unfold SFltb.
  rewrite (SFcompare_antisym (Prim2SF x) (Prim2SF y)).
  destruct (SFcompare (Prim2SF x) (Prim2SF y)) as [[]|]; cbn; congruence.
Qed.

Ltac zero_cases_of x y :=
  unfold is_pos_zero, is_neg_zero;
  destruct (PrimFloat.Leibniz.eqb y _) eqn:?Ey; cbn [andb];
  [destruct (PrimFloat.Leibniz.eqb x _) eqn:?Ex;
   [apply FloatAxioms.Leibniz.eqb_spec in Ey, Ex; subst; split; reflexivity|]|].

(** Neither argument is above the maximum, or below the minimum. *)
Lemma ltb_max x y :
  PrimFloat.ltb (max x y) x = false /\ PrimFloat.ltb (max x y) y = false.
Proof.
  unfold max. destruct (PrimFloat.is_nan x || PrimFloat.is_nan y);
    [split; apply ltb_nan_l|].
  zero_cases_of x y.
  all: destruct (PrimFloat.ltb x y) eqn:L;
    [split; [now apply ltb_asym|apply ltb_irrefl]
    |split; [apply ltb_irrefl|exact L]].
Qed.

Lemma ltb_min x y :
  PrimFloat.ltb x (min x y) = false /\ PrimFloat.ltb y (min x y) = false.
Proof.
  unfold min. destruct (PrimFloat.is_nan x || PrimFloat.is_nan y);
    [split; apply ltb_nan_r|].
  zero_cases_of x y.
  all: destruct (PrimFloat.ltb y x) eqn:L;
    [split; [now apply ltb_asym|apply ltb_irrefl]
    |split; [apply ltb_irrefl|exact L]].
Qed.

Lemma lt_Math_max a b :
  lt (Math_max a b) a = false /\ lt (Math_max a b) b = false.
Proof. unfold Math_max. destruct a, b; apply ltb_max. Qed.

Lemma lt_Math_min a b :
  lt a (Math_min a b) = false /\ lt b (Math_min a b) = false.
Proof. unfold Math_min. destruct a, b; apply ltb_min. Qed.

Lemma intersection_fields a b :
  intersection a b
  = list_to_map
      [("top", Math_max (a !!! "top") (b !!! "top"));
       ("right", Math_min (add (a !!! "left") (a !!! "width"))
                          (add (b !!! "left") (b !!! "width")));
       ("bottom", Math_min (add (a !!! "top") (a !!! "height"))
                           (add (b !!! "top") (b !!! "height")));
       ("left", Math_max (a !!! "left") (b !!! "left"));
       ("height", sub (Math_min (add (a !!! "top") (a !!! "height"))
                                (add (b !!! "top") (b !!! "height")))
                      (Math_max (a !!! "top") (b !!! "top")));
       ("width", sub (Math_min (add (a !!! "left") (a !!! "width"))
                               (add (b !!! "left") (b !!! "width")))
                     (Math_max (a !!! "left") (b !!! "left")))].
Proof.
  unfold intersection.
  generalize (Math_max (a !!! "top") (b !!! "top"))
    (Math_min (add (a !!! "left") (a !!! "width")) (add (b !!! "left") (b !!! "width")))
    (Math_min (add (a !!! "top") (a !!! "height")) (add (b !!! "top") (b !!! "height")))
    (Math_max (a !!! "left") (b !!! "left")).
  intros t r bt l. cbv zeta.
  set (A := <["left" := l]> (<["bottom" := bt]> (<["right" := r]> (<["top" := t]> ∅))) : obj).
  assert (Hb : A !!! "bottom" = bt) by reflexivity.
  assert (Ht : A !!! "top" = t) by reflexivity.
  rewrite Hb, Ht.
  assert (Hr : <["height" := sub bt t]> A !!! "right" = r) by reflexivity.
  assert (Hl : <["height" := sub bt t]> A !!! "left" = l) by reflexivity.
  rewrite Hr, Hl. subst A.
  generalize (sub bt t) (sub r l). intros hh w. clear.
  vm_compute. reflexivity.
Qed.

(** X17. The intersection is a full rectangle of numbers whatever the
    inputs hold, and it never reaches beyond either input: its top and left
    are not less than an input's, and its right and bottom are not greater
    than an input's [left + width] and [top + height]. *)
Theorem intersection_within_inputs (a b : obj) :
  full_rectangle (intersection a b) /\
  (lt (intersection a b !!! "top") (a !!! "top") = false /\
   lt (intersection a b !!! "top") (b !!! "top") = false) /\
  (lt (intersection a b !!! "left") (a !!! "left") = false /\
   lt (intersection a b !!! "left") (b !!! "left") = false) /\
  (lt (add (a !!! "left") (a !!! "width")) (intersection a b !!! "right") = false /\
   lt (add (b !!! "left") (b !!! "width")) (intersection a b !!! "right") = false) /\
  (lt (add (a !!! "top") (a !!! "height")) (intersection a b !!! "bottom") = false /\
   lt (add (b !!! "top") (b !!! "height")) (intersection a b !!! "bottom") = false).
Proof.
  rewrite intersection_fields.
  split; [|split; [|split; [|split]]].
  - intros k Hk. unfold STRIP_FOR in Hk. cbn [In] in Hk.
    destruct Hk as [<-|[<-|[<-|[<-|[<-|[<-|[]]]]]]]; reflexivity.
  - apply lt_Math_max.
  - apply lt_Math_max.
  - apply lt_Math_min.
  - apply lt_Math_min.
Qed.

Lemma viewport_full h : full_rectangle (viewport h).
Proof.
  intros k Hk. unfold STRIP_FOR in Hk. cbn [In] in Hk. destruct h.
  destruct Hk as [<-|[<-|[<-|[<-|[<-|[<-|[]]]]]]]; reflexivity.
Qed.

(** X18. The area [overDirs] measures against is always a full rectangle
    of numbers, with or without a container, so each of its four tests
    compares against a number. *)
Theorem reference_area_full (h : host) (el : option element) :
  full_rectangle (reference_area h el).
Proof.
  destruct el as [e|]; unfold reference_area.
  - rewrite intersection_fields. intros k Hk. unfold STRIP_FOR in Hk. cbn [In] in Hk.
    destruct Hk as [<-|[<-|[<-|[<-|[<-|[<-|[]]]]]]]; reflexivity.
  - rewrite viewport_area. apply viewport_full.
Qed.

(** X19. The scroll offset is the root element's scroll position, and the
    body's where the root's is 0 or NaN. *)
Theorem scrollOffset_root_or_body (h : host) :
  scrollOffset h
  = list_to_map
      [("top", Num (num_or (scrollTop (documentElement h)) (scrollTop (body h))));
       ("left", Num (num_or (scrollLeft (documentElement h)) (scrollLeft (body h))))].
Proof.
  unfold scrollOffset, scrollers, body_parentNode, num_or. cbn [map fold_left].
  destruct (truthy (scrollTop (documentElement h))) eqn:T,
    (truthy (scrollLeft (documentElement h))) eqn:L; rewrite ?T, ?L; reflexivity.
Qed.

(** ** Names and deprecation warnings *)




(** X22. [deprecatedWarning] logs nothing for an action whose type is not
    one of the action types, and nothing when the payload has no truthy
    [el]; otherwise it logs the deprecation message, followed by the second
    message exactly when [origin] is truthy too.  The second message never
    comes alone. *)
Theorem deprecatedWarning_log (actionTypes : list string) (a : action) :
  deprecatedWarning actionTypes a
  = (if unrelated actionTypes (a_type a) || negb (payload_has_el (a_payload a))
     then []
     else if payload_has_origin (a_payload a) then [warn_deprecated; warn_both]
     else [warn_deprecated]) /\
  (In warn_both (deprecatedWarning actionTypes a) ->
   deprecatedWarning actionTypes a = [warn_deprecated; warn_both]) /\
  (forall v, (forall s, v <> Str s) -> a_type a = v ->
             deprecatedWarning actionTypes a = []).
Proof.
  assert (E : deprecatedWarning actionTypes a
    = (if unrelated actionTypes (a_type a) || negb (payload_has_el (a_payload a))
       then []
       else if payload_has_origin (a_payload a) then [warn_deprecated; warn_both]
       else [warn_deprecated])).
  { unfold deprecatedWarning, push.
    destruct (unrelated _ _), (payload_has_el _), (payload_has_origin _); reflexivity. }
  split; [exact E|split].
  - rewrite E.
    destruct (unrelated _ _ || _); [intros []|].
    destruct (payload_has_origin _); [reflexivity|].
    intros [H|[]]. discriminate H.
  - intros v Hv Ht. unfold deprecatedWarning, unrelated. rewrite Ht.
    destruct v; try reflexivity. now destruct (Hv s).
Qed.

(** ** The shape of an offset *)


